(** * pcdsdaq.daq: a shallow embedding of the DAQ control client

    The development follows [pcdsdaq/daq.py].  Python values, exceptions and
    attribute look-ups are written out explicitly; methods that read or
    mutate the device object are functions in a state-and-exception monad
    over the object (and the environment it talks to). *)

From Stdlib Require Import ZArith QArith Qround Lqa Ascii DecimalString.
From stdpp Require Import base gmap sets list strings.

Close Scope Q_scope.
Open Scope string_scope.
Open Scope Z_scope.

(** ** Python exceptions and results *)

(** The exception classes the module raises or catches.  [PeerException] is
    any other subclass of [Exception] coming out of external code;
    [KeyboardInterrupt] is the only one here that is not an [Exception]. *)
Inductive exn : Set :=
| AttributeError (msg : string)
| TypeError (msg : string)
| ValueError (msg : string)
| KeyError (msg : string)
| NameError (msg : string)
| RuntimeError (msg : string)
| StateTransitionError (msg : string)
| DaqTimeoutError (msg : string)
| StatusTimeoutError
| WaitTimeoutError
| InvalidState
| KeyboardInterrupt
| FileNotFoundError
| PeerException (msg : string).

Definition is_Exception (e : exn) : bool :=
  match e with KeyboardInterrupt => false | _ => true end.

Definition is_AttributeError (e : exn) : bool :=
  match e with AttributeError _ => true | _ => false end.
Definition is_TypeError (e : exn) : bool :=
  match e with TypeError _ => true | _ => false end.
Definition is_RuntimeError (e : exn) : bool :=
  match e with RuntimeError _ => true | _ => false end.
Definition is_StateTransitionError (e : exn) : bool :=
  match e with StateTransitionError _ => true | _ => false end.
Definition is_KeyError (e : exn) : bool :=
  match e with KeyError _ => true | _ => false end.
Definition is_KeyboardInterrupt (e : exn) : bool :=
  match e with KeyboardInterrupt => true | _ => false end.
Definition is_FileNotFoundError (e : exn) : bool :=
  match e with FileNotFoundError => true | _ => false end.
Definition is_timeout (e : exn) : bool :=
  match e with StatusTimeoutError | WaitTimeoutError => true | _ => false end.

(** [str(exc)] *)
Definition exn_str (e : exn) : string :=
  match e with
  | AttributeError m | TypeError m | ValueError m | KeyError m | NameError m
  | RuntimeError m | StateTransitionError m | DaqTimeoutError m
  | PeerException m => m
  | StatusTimeoutError | WaitTimeoutError | InvalidState
  | KeyboardInterrupt | FileNotFoundError => ""
  end.

(** The outcome of a call: a value, a raised exception, or a call that
    blocks for ever (a wait without timeout on a token nobody completes). *)
Inductive result (A : Type) : Type :=
| Ok (a : A)
| Raise (e : exn)
| Hang.
Arguments Ok {A} a.
Arguments Raise {A} e.
Arguments Hang {A}.

Definition rbind {A B} (r : result A) (k : A → result B) : result B :=
  match r with
  | Ok a => k a
  | Raise e => Raise e
  | Hang => Hang
  end.

(** [try: r except <sel>: h] on pure code. *)
Definition rcatch {A} (r : result A) (sel : exn → bool) (h : exn → result A)
  : result A :=
  match r with
  | Raise e => if sel e then h e else Raise e
  | _ => r
  end.

Fixpoint rmapM {A B} (f : A → result B) (l : list A) : result (list B) :=
  match l with
  | [] => Ok []
  | x :: l' => rbind (f x) (λ y, rbind (rmapM f l') (λ ys, Ok (y :: ys)))
  end.

(** ** [HelpfulIntEnum]

    An [IntEnum] class is given by its [__members__]: the names in
    definition order, each with its integer value.  Members are integers
    (they hash and compare as their value), so a member is represented by
    its value and a Python [set] of members by a [gset Z].

    [from_any], [include] and [exclude] are plain functions of the class
    body: none is a [classmethod].  What their first parameter [self] is
    bound to depends on how they are called, and every caller in the
    module calls them on the enumeration class
    ([self.state_enum.from_any(s)]). *)
Module HelpfulIntEnum.

Record enum := Enum { enum_name : string; members : list (string * Z) }.

(** What callers pass as an identifier: a member name, or an ordinal (an
    [int] or a member, which is an [int]). *)
Inductive identifier := Name (s : string) | Ordinal (z : Z).

(** [enum.Enum(name, 'A B C', start=s)] and
    [HelpfulIntEnum(name, [names])]: consecutive values from [start]. *)
Fixpoint number_from (start : Z) (names : list string) : list (string * Z) :=
  match names with
  | [] => []
  | n :: ns => (n, start) :: number_from (start + 1) ns
  end.

Definition functional (name : string) (names : list string) (start : Z) : enum :=
  Enum name (number_from start names).

(** [cls[name]]: look-up in the member map, [KeyError] otherwise. *)
Definition getitem (e : enum) (i : identifier) : result Z :=
  match i with
  | Name s =>
      match find (λ m, String.eqb (fst m) s) (members e) with
      | Some m => Ok (snd m)
      | None => Raise (KeyError s)
      end
  | Ordinal _ => Raise (KeyError "")
  end.

(** [repr] of an [int] *)
Definition repr_int (z : Z) : string := NilZero.string_of_int (Z.to_int z).

(** [cls(value)]: look-up by value, [ValueError] otherwise. *)
Definition call (e : enum) (i : identifier) : result Z :=
  match i with
  | Ordinal z =>
      if existsb (λ m, Z.eqb (snd m) z) (members e) then Ok z
      else Raise (ValueError (repr_int z ++ " is not a valid " ++ enum_name e))
  | Name s => Raise (ValueError ("'" ++ s ++ "' is not a valid " ++ enum_name e))
  end.

(** [member.name]: the first name defined with that value. *)
Definition name_of (e : enum) (v : Z) : option string :=
  fst <$> find (λ m, Z.eqb (snd m) v) (members e).

(** What [self] is inside a helper: the enumeration class, when the
    function is taken from the base class and the class is passed to it
    ([HelpfulIntEnum.from_any(cls, x)]), or a member, when the function is
    called on a member ([member.from_any(x)]). *)
Inductive receiver :=
| Class (e : enum)
| Member (e : enum) (v : Z).

(** The [TypeError] of a call that leaves the second parameter [p] of the
    helper [f] without an argument. *)
Definition missing (f p : string) : exn :=
  TypeError ("HelpfulIntEnum." ++ f
             ++ "() missing 1 required positional argument: '" ++ p ++ "'").

(** [obj.f(x)] for a helper [f] with parameters [(self, p)] and the given
    body.  Looked up on a member, the function is bound to the member.
    Looked up on the class it is the plain function: [x] is taken for
    [self], nothing is left for [p], and the body is not entered. *)
Definition method {A B} (f p : string) (body : receiver → A → result B)
    (obj : receiver) (x : A) : result B :=
  match obj with
  | Class _ => Raise (missing f p)
  | Member _ _ => body obj x
  end.

(** [self[identifier]]: a member is an [int], which has no items. *)
Definition self_getitem (self : receiver) (i : identifier) : result Z :=
  match self with
  | Class e => getitem e i
  | Member e _ =>
      Raise (TypeError ("'" ++ enum_name e ++ "' object is not subscriptable"))
  end.

(** [self(identifier)] *)
Definition self_call (self : receiver) (i : identifier) : result Z :=
  match self with
  | Class e => call e i
  | Member e _ =>
      Raise (TypeError ("'" ++ enum_name e ++ "' object is not callable"))
  end.

Definition from_any (self : receiver) (identifier : identifier) : result Z :=
  rcatch (self_getitem self identifier) is_KeyError
    (λ _, self_call self identifier).

(** The set comprehension takes the identifiers in order and stops at the
    first call that raises. *)
Definition include (self : receiver) (identifiers : list identifier)
  : result (gset Z) :=
  rbind (rmapM (method "from_any" "identifier" from_any self) identifiers)
    (λ ms, Ok (list_to_set ms)).

Definition all_members (e : enum) : gset Z := list_to_set (snd <$> members e).

(** [set(self.__members__.values())]: [__members__] is an attribute of
    the class, not of its members. *)
Definition self_members (self : receiver) : result (gset Z) :=
  match self with
  | Class e => Ok (all_members e)
  | Member e _ =>
      Raise (AttributeError
               ("'" ++ enum_name e ++ "' object has no attribute '__members__'"))
  end.

Definition exclude (self : receiver) (identifiers : list identifier)
  : result (gset Z) :=
  rbind (self_members self) (λ everything,
  rbind (method "include" "identifiers" include self identifiers) (λ inc,
  Ok (everything ∖ inc))).

End HelpfulIntEnum.

(** ** State-and-exception monad

    A method of a device is a function from the world before the call to
    its outcome and the world after it; mutations made before an exception
    is raised stay. *)
Definition M (W A : Type) : Type := W → result A * W.

Definition ret {W A} (a : A) : M W A := λ w, (Ok a, w).
Definition raise {W A} (e : exn) : M W A := λ w, (Raise e, w).
Definition hang {W A} : M W A := λ w, (Hang, w).
Definition bind {W A B} (c : M W A) (k : A → M W B) : M W B :=
  λ w, match c w with
       | (Ok a, w') => k a w'
       | (Raise e, w') => (Raise e, w')
       | (Hang, w') => (Hang, w')
       end.
Definition gets {W A} (f : W → A) : M W A := λ w, (Ok (f w), w).
Definition modify {W} (f : W → W) : M W unit := λ w, (Ok tt, f w).
Definition lift_result {W A} (r : result A) : M W A := λ w, (r, w).

(** [try: c except <sel> as e: h e] *)
Definition try_except {W A} (c : M W A) (sel : exn → bool) (h : exn → M W A)
  : M W A :=
  λ w, match c w with
       | (Raise e, w') => if sel e then h e w' else (Raise e, w')
       | r => r
       end.

(** [try: c finally: f]: [f] runs whether [c] returns or raises (not when it
    never returns); an exception in [f] replaces the outcome of [c]. *)
Definition try_finally {W A} (c : M W A) (f : M W unit) : M W A :=
  λ w, match c w with
       | (Hang, w') => (Hang, w')
       | (r, w') =>
           match f w' with
           | (Ok _, w'') => (r, w'')
           | (Raise e, w'') => (Raise e, w'')
           | (Hang, w'') => (Hang, w'')
           end
       end.

(** Both monads use stdpp's [x ← c; k] and [c;; k]. *)
Global Instance result_ret : MRet result := λ A a, Ok a.
Global Instance result_bind : MBind result := λ A B k r, rbind r k.
Global Instance M_ret {W} : MRet (M W) := λ A a, ret a.
Global Instance M_bind {W} : MBind (M W) := λ A B k c, bind c k.

(** [when b c]: [if b: c] *)
Definition when {W} (b : bool) (c : M W unit) : M W unit :=
  if b then c else ret tt.

(** ** [ophyd] status tokens and signals, as far as the module uses them *)

Inductive status_state :=
| Pending
| Finished
| Failed (e : exn).

Definition status_done (s : status_state) : bool :=
  match s with Pending => false | _ => true end.

(** ** The asynchronous backend, [DaqLCLS2] *)
Module DaqLCLS2.
Import HelpfulIntEnum.

(** The [psdaq] package: the vocabulary lists of [ControlDef] and the
    requests a [DaqControl] accepts.  The peer is opaque; a request may
    raise. *)
Class Psdaq := {
  ControlDef_states : list string;
  ControlDef_transitions : list string;
  DaqControl : Type;
  setTransition : string → DaqControl → result unit * DaqControl;
}.

(** A [Signal] whose component was declared with [value=None]: either
    never written, or the keyword arguments [(value, old_value)] of the
    last run of its value subscribers.  Enum members are integers, [None]
    is Python's [None]. *)
Definition signal := option (option Z * option Z).

Definition sig_get (s : signal) : option Z :=
  match s with Some (v, _) => v | None => None end.

(** The closure built by one call of [get_status_for]: the two target
    sets, [check_now], the two [nonlocal] variables, the status object and
    the two subscriptions.  [completed] counts the transitions of the
    status from pending to done. *)
Record token := Token {
  tk_state : gset (option Z);
  tk_transition : gset (option Z);
  tk_check_now : bool;
  tk_timeout : option Q;
  last_state : option Z;
  last_transition : option Z;
  status : status_state;
  completed : nat;
  callbacks : bool;          (* [clean_up] is attached to the status *)
  state_cbid : bool;         (* [check_state] is subscribed *)
  transition_cbid : bool;    (* [check_transition] is subscribed *)
}.

Definition set_last_state (v : option Z) (tk : token) : token :=
  Token (tk_state tk) (tk_transition tk) (tk_check_now tk) (tk_timeout tk)
    v (last_transition tk) (status tk) (completed tk) (callbacks tk)
    (state_cbid tk) (transition_cbid tk).
Definition set_last_transition (v : option Z) (tk : token) : token :=
  Token (tk_state tk) (tk_transition tk) (tk_check_now tk) (tk_timeout tk)
    (last_state tk) v (status tk) (completed tk) (callbacks tk)
    (state_cbid tk) (transition_cbid tk).
Definition set_subscribed (s t : bool) (tk : token) : token :=
  Token (tk_state tk) (tk_transition tk) (tk_check_now tk) (tk_timeout tk)
    (last_state tk) (last_transition tk) (status tk) (completed tk)
    (callbacks tk) s t.
Definition set_callbacks (b : bool) (tk : token) : token :=
  Token (tk_state tk) (tk_transition tk) (tk_check_now tk) (tk_timeout tk)
    (last_state tk) (last_transition tk) (status tk) (completed tk)
    b (state_cbid tk) (transition_cbid tk).
Definition set_status (s : status_state) (n : nat) (tk : token) : token :=
  Token (tk_state tk) (tk_transition tk) (tk_check_now tk) (tk_timeout tk)
    (last_state tk) (last_transition tk) s n (callbacks tk)
    (state_cbid tk) (transition_cbid tk).

(** [clean_up(status)]: drop both subscriptions. *)
Definition clean_up (tk : token) : token := set_subscribed false false tk.

(** The status goes from pending to done: its callbacks run. *)
Definition complete_with (s : status_state) (tk : token) : token :=
  let tk := set_status s (S (completed tk)) tk in
  if callbacks tk then clean_up tk else tk.

(** [status.set_finished()]: [InvalidState] on a status that is done. *)
Definition set_finished : M token unit :=
  λ tk, match status tk with
        | Pending => (Ok tt, complete_with Finished tk)
        | _ => (Raise InvalidState, tk)
        end.

(** [status.add_callback(clean_up)]: runs at once on a done status. *)
Definition add_callback (tk : token) : token :=
  if status_done (status tk) then clean_up tk else set_callbacks true tk.

(** The timer of a status built with a timeout. *)
Definition timer_expired (tk : token) : token :=
  match tk_timeout tk, status tk with
  | Some _, Pending => complete_with (Failed StatusTimeoutError) tk
  | _, _ => tk
  end.

Definition success : M token unit :=
  try_except set_finished
    (λ e, match e with InvalidState => true | _ => false end)
    (λ _, ret tt).

Definition check_state (value old_value : option Z) : M token unit :=
  check_now ← gets tk_check_now;
  if bool_decide (value = old_value) && negb check_now then ret tt
  else
    (* with lock: *)
    state ← gets tk_state;
    transition ← gets tk_transition;
    last_transition ← gets last_transition;
    if bool_decide (value ∈ state) && bool_decide (last_transition ∈ transition)
    then success
    else modify (set_last_state value).

Definition check_transition (value old_value : option Z) : M token unit :=
  check_now ← gets tk_check_now;
  if bool_decide (value = old_value) && negb check_now then ret tt
  else
    (* with lock: *)
    state ← gets tk_state;
    transition ← gets tk_transition;
    last_state ← gets last_state;
    if bool_decide (value ∈ transition) && bool_decide (last_state ∈ state)
    then success
    else modify (set_last_transition value).

Section Backend.
Context `{Psdaq}.

(** The part of the device that the methods below use: the two signals, the
    statuses handed out so far, the peer (absent until [__init__] assigns
    it) and the requests sent to it. *)
Record daq := Daq {
  state_sig : signal;
  transition_sig : signal;
  tokens : list token;
  _control : option DaqControl;
  requests : list string;
}.

Definition state_enum : enum := functional "PsdaqState" ControlDef_states 1.
Definition transition_enum : enum :=
  functional "PsdaqTransition" ControlDef_transitions 1.

(** A callback of [ophyd] runs to completion; the bodies above raise
    nothing. *)
Definition run_cb (c : M token unit) (tk : token) : token := snd (c tk).

(** [state_sig.put(value)]: store, then run the value subscribers. *)
Definition put_state (value : option Z) (d : daq) : daq :=
  let old_value := sig_get (state_sig d) in
  Daq (Some (value, old_value)) (transition_sig d)
    ((λ tk, if state_cbid tk then run_cb (check_state value old_value) tk
            else tk) <$> tokens d)
    (_control d) (requests d).

Definition put_transition (value : option Z) (d : daq) : daq :=
  let old_value := sig_get (transition_sig d) in
  Daq (state_sig d) (Some (value, old_value))
    ((λ tk, if transition_cbid tk
            then run_cb (check_transition value old_value) tk
            else tk) <$> tokens d)
    (_control d) (requests d).

(** The object that [super().__init__(...)] has built when the body of
    [__init__] goes on: both signals never put, no status handed out,
    [_control] not assigned.  [Daq.__init__] has registered it, so that
    [get_daq()] hands it out whatever becomes of the rest of [__init__]. *)
Definition built : daq := Daq None None [] None [].

(** [__init__] after [super().__init__(...)], with the outcome of
    [DaqControl(host=..., platform=..., timeout=...)]; the two statements
    that follow the assignment of [_control] (the flag [_infinite_run] and
    the start of the monitor thread) are not part of [daq]. *)
Definition __init__ (control : result DaqControl) : M daq unit :=
  reset ← lift_result
    (method "from_any" "identifier" from_any (Class state_enum) (Name "reset"));
  modify (put_state (Some reset));;
  reset ← lift_result
    (method "from_any" "identifier" from_any (Class transition_enum)
       (Name "reset"));
  modify (put_transition (Some reset));;
  control ← lift_result control;
  modify (λ d, Daq (state_sig d) (transition_sig d) (tokens d) (Some control)
                 (requests d)).

(** [sig.subscribe(cb, run=run)]: with [run], the callback is called at
    once with the cached arguments of the last run, if there was one. *)
Definition subscribe_run (run : bool) (s : signal)
    (cb : option Z → option Z → M token unit) (tk : token) : token :=
  match run, s with
  | true, Some (value, old_value) => run_cb (cb value old_value) tk
  | _, _ => tk
  end.

(** The target set of one argument of [get_status_for]:
    [{None}] without the argument, and otherwise
    [{self.state_enum.from_any(s) for s in state}], each call made on the
    enumeration class. *)
Definition target_set (e : enum) (arg : option (list identifier))
  : result (gset (option Z)) :=
  match arg with
  | None => Ok {[ None ]}
  | Some ids =>
      rbind (rmapM (method "from_any" "identifier" from_any (Class e)) ids)
        (λ ms, Ok (list_to_set (Some <$> ms)))
  end.

(** The body of [get_status_for] after the target sets are built: the
    status, the two subscriptions (each run at once under [check_now])
    and the clean-up callback.  Returns the index of the new token. *)
Definition make_token (state transition : gset (option Z))
    (timeout : option Q) (check_now : bool) : M daq nat :=
  λ d,
    let tk := Token state transition check_now timeout None None
                Pending 0 false false false in
    let tk := set_subscribed true false tk in
    let tk := subscribe_run check_now (state_sig d) check_state tk in
    let tk := set_subscribed (state_cbid tk) true tk in
    let tk := subscribe_run check_now (transition_sig d) check_transition tk in
    let tk := add_callback tk in
    (Ok (length (tokens d)),
     Daq (state_sig d) (transition_sig d) (tokens d ++ [tk])
       (_control d) (requests d)).

Definition get_status_for (state transition : option (list identifier))
    (timeout : option Q) (check_now : bool) : M daq nat :=
  state ← lift_result (target_set state_enum state);
  transition ← lift_result (target_set transition_enum transition);
  make_token state transition timeout check_now.

(** [get_done_status]: the argument of [get_status_for] is
    [self.transition_enum.exclude([...])], evaluated first; the members
    it would return are identifiers by their value. *)
Definition get_done_status (timeout : option Q) : M daq nat :=
  transition ← lift_result
    (method "exclude" "identifiers" exclude (Class transition_enum)
       [Name "beginrun"; Name "beginstep"; Name "enable"]);
  get_status_for None (Some (Ordinal <$> elements transition)) timeout true.

(** [self._control.setTransition(name)], with the request logged. *)
Definition control_setTransition (name : string) : M daq unit :=
  λ d, match _control d with
       | Some c =>
           let '(r, c) := setTransition name c in
           (r, Daq (state_sig d) (transition_sig d) (tokens d) (Some c)
                 (requests d ++ [name]))
       | None =>
           (Raise (AttributeError
                     "'DaqLCLS2' object has no attribute '_control'"), d)
       end.

(** [self.state_sig.get() in self.state_enum.include([...])]: the signal
    is read, then [include] is called on the enumeration class. *)
Definition stop : M daq unit :=
  cur ← gets (λ d, sig_get (state_sig d));
  applicable ← lift_result
    (method "include" "identifiers" include (Class state_enum)
       [Name "paused"; Name "running"]);
  match cur with
  | Some v => when (bool_decide (v ∈ applicable)) (control_setTransition "endstep")
  | None => ret tt
  end.

Definition end_run : M daq unit :=
  cur ← gets (λ d, sig_get (state_sig d));
  applicable ← lift_result
    (method "include" "identifiers" include (Class state_enum)
       [Name "starting"; Name "paused"; Name "running"]);
  match cur with
  | Some v => when (bool_decide (v ∈ applicable)) (control_setTransition "endrun")
  | None => ret tt
  end.

(** What the listener and the timers do to the device between two
    instructions of the caller. *)
Inductive event :=
| PutState (v : option Z)
| PutTransition (v : option Z)
| TimerExpired (h : nat).

Definition deliver (ev : event) (d : daq) : daq :=
  match ev with
  | PutState v => put_state v d
  | PutTransition v => put_transition v d
  | TimerExpired h =>
      Daq (state_sig d) (transition_sig d)
        (alter timer_expired h (tokens d)) (_control d) (requests d)
  end.

Definition run (evs : list event) (d : daq) : daq :=
  foldl (λ d ev, deliver ev d) d evs.

(** [status.wait()] while nothing is put to the signals: a finished
    status returns, a failed one raises its exception, a pending one is
    failed by its timer if it has one and blocks for ever if not. *)
Definition status_wait (h : nat) : M daq unit :=
  λ d, match tokens d !! h with
       | Some tk =>
           match status tk, tk_timeout tk with
           | Finished, _ => (Ok tt, d)
           | Failed e, _ => (Raise e, d)
           | Pending, Some _ =>
               (Raise StatusTimeoutError, deliver (TimerExpired h) d)
           | Pending, None => (Hang, d)
           end
       | None => (Hang, d)
       end.

Definition wait (timeout : option Q) (end_run' : bool) : M daq unit :=
  done_status ← get_done_status timeout;
  status_wait done_status;;
  when end_run' end_run.

End Backend.

(** The vocabulary of the [psdaq] package, with a peer that accepts every
    request: the environment of the examples. *)
Definition sim_psdaq : Psdaq := {|
  ControlDef_states :=
    ["reset"; "unallocated"; "allocated"; "connected"; "configured";
     "starting"; "paused"; "running"];
  ControlDef_transitions :=
    ["rollcall"; "alloc"; "dealloc"; "connect"; "disconnect"; "configure";
     "unconfigure"; "beginrun"; "endrun"; "beginstep"; "endstep"; "enable";
     "disable"; "slowupdate"; "reset"];
  DaqControl := unit;
  setTransition := λ _ c, (Ok tt, c);
|}.

(** A device in state [running] (8) after the transition [enable] (12),
    with the peer assigned: the signals put by hand, since nothing in the
    class gets them there. *)
Definition sim_running : @daq sim_psdaq :=
  @Daq sim_psdaq (Some (Some 8, Some 7)) (Some (Some 12, Some 10)) []
    (Some tt) [].
End DaqLCLS2.


(** ** Python values of the configuration *)

(** What a control device yields when it is read: a number, or a sequence
    of numbers (of which [_ctrl_arg] keeps the first). *)
Inductive reading :=
| Scalar (q : Q)
| Sequence (l : list Q).

(** A device passed in [controls]: its [name], its [position] if it has
    one, and what [get()] returns. *)
Record device := Device {
  dev_name : string;
  dev_position : option reading;
  dev_get : reading;
}.

Inductive pyval :=
| VNone
| VBool (b : bool)
| VInt (n : Z)
| VFloat (q : Q)
| VStr (s : string)
| VList (devices : list device)
| VDict (devices : list (string * device)).

(** An argument whose default is the sentinel [_CONFIG_VAL]. *)
Inductive arg :=
| CONFIG_VAL
| Given (v : pyval).

(** Numbers, with [bool] a subtype of [int]. *)
Definition as_number (v : pyval) : option Q :=
  match v with
  | VBool b => Some (if b then 1 else 0)%Q
  | VInt n => Some (inject_Z n)
  | VFloat q => Some q
  | _ => None
  end.

Definition Qltb (a b : Q) : bool := negb (Qle_bool b a).

(** [a == b] on the values the module compares (numbers, [None], strings);
    two containers of devices are equal only as the same object, which the
    module never tests. *)
Definition py_eq (a b : pyval) : bool :=
  match as_number a, as_number b with
  | Some x, Some y => Qeq_bool x y
  | _, _ =>
      match a, b with
      | VNone, VNone => true
      | VStr s, VStr t => String.eqb s t
      | _, _ => false
      end
  end.

(** [bool(v)] *)
Definition truthy (v : pyval) : bool :=
  match v with
  | VNone => false
  | VBool b => b
  | VInt n => negb (n =? 0)
  | VFloat q => negb (Qeq_bool q 0)
  | VStr s => negb (String.eqb s "")
  | VList l => match l with [] => false | _ => true end
  | VDict l => match l with [] => false | _ => true end
  end.

(** [x is None] *)
Definition is_None (v : pyval) : bool :=
  match v with VNone => true | _ => false end.

(** [x in (None, _CONFIG_VAL)]: identity or equality with either. *)
Definition in_None_CONFIG_VAL (a : arg) : bool :=
  match a with
  | CONFIG_VAL => true
  | Given v => py_eq v VNone
  end.

(** [int(x)] on a number: truncation towards zero. *)
Definition Qtruncate (q : Q) : Z := Z.quot (Qnum q) (Zpos (Qden q)).

(** ** Keyword arguments

    A call that unpacks the dictionary [kwargs] into the keyword
    parameters [params] of a function, all with default [_CONFIG_VAL]: a
    key outside [params] is a [TypeError]. *)
Definition kwargs := list (string * arg).

Definition kwarg (kw : kwargs) (name : string) : arg :=
  match find (λ kv, String.eqb (fst kv) name) kw with
  | Some kv => snd kv
  | None => CONFIG_VAL
  end.

Definition bind_kwargs (fname : string) (params : list string) (kw : kwargs)
  : result (string → arg) :=
  match find (λ kv, negb (existsb (String.eqb (fst kv)) params)) kw with
  | Some kv =>
      Raise (TypeError (fname ++ "() got an unexpected keyword argument '"
                          ++ fst kv ++ "'"))
  | None => Ok (kwarg kw)
  end.

(** ** [ophyd] components *)

Inductive Kind := omitted | normal | config | hinted.

(** One [Cpt(Signal, value=..., kind=..., name=...)] of a class body. *)
Record component := Cpt {
  cpt_attr : string;
  cpt_name : string;
  cpt_kind : Kind;
  cpt_value : pyval;
}.

(** An attribute found on the object that the class does not define. *)
Inductive pyobj :=
| OEnum (e : HelpfulIntEnum.enum)
| OSignal (kind : Kind) (value : pyval)
| OValue (v : pyval).

Definition BEGIN_TIMEOUT : Z := 15.

Definition Daq_components : list component := [
  Cpt "configured_sig" "configured" normal (VBool false);
  Cpt "events_cfg" "events" config VNone;
  Cpt "duration_cfg" "duration" config VNone;
  Cpt "record_cfg" "record" config VNone;
  Cpt "controls_cfg" "controls" config VNone;
  Cpt "begin_timeout_cfg" "begin_timeout" config (VInt BEGIN_TIMEOUT);
  Cpt "begin_sleep_cfg" "begin_sleep" config (VInt 0)
].

(** ** The synchronous backend and its environment *)

(** [pydaq.Control.configure] and [pydaq.Control.begin] take keyword
    arguments; a key that is absent is [None] here. *)
Record config_args := ConfigArgs {
  cfg_record : option bool;
  cfg_l3t_events : option Z;
  cfg_events : option Z;
  cfg_controls : option (list (string * reading));
}.

Record begin_args := BeginArgs {
  bgn_events : option pyval;
  bgn_l3t_events : option pyval;
  bgn_duration : option (Z * Z);
  bgn_controls : option (list (string * reading));
}.

(** What the module needs from outside: the [pydaq] binding (an opaque
    peer whose calls may raise, and whose state query returns an ordinal),
    the wall clock, the module global [BEGIN_THROTTLE] (which the test
    fixtures overwrite) and the external run-number script. *)
Class Pydaq := {
  Control : Type;
  Control_new : string → Z → result Control;
  control_connect : Control → result unit * Control;
  control_disconnect : Control → result unit * Control;
  control_state : Control → Z * Control;
  control_configure : config_args → Control → result unit * Control;
  control_begin : begin_args → Control → result unit * Control;
  control_stop : Control → result unit * Control;
  control_end : Control → result unit * Control;
  control_endrun : Control → result unit * Control;
  hostname : string;
  BEGIN_THROTTLE : Q;
  rpc_latency : Q;
  rpc_latency_nonneg : (0 <= rpc_latency)%Q;
  oversleep : Q;
  oversleep_nonneg : (0 <= oversleep)%Q;
  get_run_number : string → bool → result Z;
}.

Inductive rpc :=
| RpcConnect
| RpcDisconnect
| RpcState
| RpcConfigure (a : config_args)
| RpcBegin (a : begin_args)
| RpcStop
| RpcEnd
| RpcEndrun.

(** What the trace records, each with the time at which it starts. *)
Inductive action :=
| Call (r : rpc)
| Await (status : nat)
| Sleep (seconds : Q).

(** The keyword arguments of the most recent begin, [self._begin]. *)
Record begin_snapshot := Snapshot {
  snap_events : arg;
  snap_duration : arg;
  snap_use_l3t : arg;
  snap_controls : arg;
}.

Section World.
Context `{Pydaq}.

(** A [DaqLCLS1] object together with its surroundings.  [puts] holds the
    last value put to each signal (a signal never put to still has the
    value of its component), [extra_attrs] the attributes that something
    other than the class has set on the object.  The rest is the
    environment: the clock, the trace of what the object did, the status
    objects it created and whether the user interrupts each wait. *)
Record world := World {
  puts : gmap string pyval;
  _queue_configure_transition : bool;
  _control : option Control;
  _begin : begin_snapshot;
  _last_stop : Q;
  _check_run_number_has_failed : bool;
  hutch_name : option string;
  extra_attrs : gmap string pyobj;
  now : Q;
  trace : list (Q * action);
  statuses : list status_state;
  interrupts : list bool;
}.

Definition set_puts (f : gmap string pyval → gmap string pyval) (w : world) :=
  World (f (puts w)) (_queue_configure_transition w) (_control w) (_begin w)
    (_last_stop w) (_check_run_number_has_failed w) (hutch_name w)
    (extra_attrs w) (now w) (trace w) (statuses w) (interrupts w).
Definition set_queue_configure_transition (b : bool) (w : world) :=
  World (puts w) b (_control w) (_begin w)
    (_last_stop w) (_check_run_number_has_failed w) (hutch_name w)
    (extra_attrs w) (now w) (trace w) (statuses w) (interrupts w).
Definition set_control (c : option Control) (w : world) :=
  World (puts w) (_queue_configure_transition w) c (_begin w)
    (_last_stop w) (_check_run_number_has_failed w) (hutch_name w)
    (extra_attrs w) (now w) (trace w) (statuses w) (interrupts w).
Definition set_begin (b : begin_snapshot) (w : world) :=
  World (puts w) (_queue_configure_transition w) (_control w) b
    (_last_stop w) (_check_run_number_has_failed w) (hutch_name w)
    (extra_attrs w) (now w) (trace w) (statuses w) (interrupts w).
Definition set_last_stop (t : Q) (w : world) :=
  World (puts w) (_queue_configure_transition w) (_control w) (_begin w)
    t (_check_run_number_has_failed w) (hutch_name w)
    (extra_attrs w) (now w) (trace w) (statuses w) (interrupts w).
Definition set_check_run_number_has_failed (b : bool) (w : world) :=
  World (puts w) (_queue_configure_transition w) (_control w) (_begin w)
    (_last_stop w) b (hutch_name w)
    (extra_attrs w) (now w) (trace w) (statuses w) (interrupts w).
Definition set_extra_attrs (f : gmap string pyobj → gmap string pyobj) (w : world) :=
  World (puts w) (_queue_configure_transition w) (_control w) (_begin w)
    (_last_stop w) (_check_run_number_has_failed w) (hutch_name w)
    (f (extra_attrs w)) (now w) (trace w) (statuses w) (interrupts w).
Definition set_now (t : Q) (w : world) :=
  World (puts w) (_queue_configure_transition w) (_control w) (_begin w)
    (_last_stop w) (_check_run_number_has_failed w) (hutch_name w)
    (extra_attrs w) t (trace w) (statuses w) (interrupts w).
Definition set_trace (f : list (Q * action) → list (Q * action)) (w : world) :=
  World (puts w) (_queue_configure_transition w) (_control w) (_begin w)
    (_last_stop w) (_check_run_number_has_failed w) (hutch_name w)
    (extra_attrs w) (now w) (f (trace w)) (statuses w) (interrupts w).
Definition set_statuses (f : list status_state → list status_state) (w : world) :=
  World (puts w) (_queue_configure_transition w) (_control w) (_begin w)
    (_last_stop w) (_check_run_number_has_failed w) (hutch_name w)
    (extra_attrs w) (now w) (trace w) (f (statuses w)) (interrupts w).
Definition set_interrupts (l : list bool) (w : world) :=
  World (puts w) (_queue_configure_transition w) (_control w) (_begin w)
    (_last_stop w) (_check_run_number_has_failed w) (hutch_name w)
    (extra_attrs w) (now w) (trace w) (statuses w) l.

(** *** The clock and the trace *)

Definition log (a : action) : M world unit :=
  modify (λ w, set_trace (λ t, (t ++ [(now w, a)])%list) w).

Definition elapse (dt : Q) : M world unit :=
  modify (λ w, set_now (now w + dt)%Q w).

(** [time.time()] *)
Definition time_time : M world Q := gets now.

(** [time.sleep(seconds)]: at least that long; a negative length is a
    [ValueError]. *)
Definition time_sleep (seconds : Q) : M world unit :=
  if Qltb seconds 0 then raise (ValueError "sleep length must be non-negative")
  else log (Sleep seconds);; elapse (seconds + oversleep)%Q.

(** A call [control.<method>(...)] on the connected peer [c]; the peer
    after the call is returned along with the outcome. *)
Definition call_peer {A} (r : rpc) (f : Control → result A * Control)
    (c : Control) : M world (result A * Control) :=
  log (Call r);; elapse rpc_latency;; ret (f c).

(** The same on [self._control], which is updated in place. *)
Definition call_control {A} (r : rpc) (f : Control → result A * Control)
  : M world A :=
  c ← gets _control;
  match c with
  | Some c =>
      out ← call_peer r f c;
      modify (set_control (Some (snd out)));;
      lift_result (fst out)
  | None => raise (AttributeError "'NoneType' object has no attribute")
  end.

(** *** Status objects and threads *)

(** [Status(obj=self)] *)
Definition Status_new : M world nat :=
  n ← gets (λ w, length (statuses w));
  modify (set_statuses (λ l, (l ++ [Pending])%list));;
  ret n.

Definition status_complete (h : nat) (s : status_state) : M world unit :=
  l ← gets statuses;
  match l !! h with
  | Some Pending => modify (set_statuses (λ l, <[h := s]> l))
  | _ => raise InvalidState
  end.

Definition status_set_finished (h : nat) : M world unit :=
  status_complete h Finished.
Definition status_set_exception (h : nat) (e : exn) : M world unit :=
  status_complete h (Failed e).

(** [status.wait(timeout)].  The user may interrupt the wait; otherwise a
    finished status returns, a failed one raises its exception, and a
    pending one raises after the timeout (at once if that is not
    positive), or blocks for ever without one. *)
Definition status_wait (h : nat) (timeout : option Q) : M world unit :=
  log (Await h);;
  user ← gets interrupts;
  modify (set_interrupts (tail user));;
  if default false (head user) then raise KeyboardInterrupt
  else
    l ← gets statuses;
    match l !! h with
    | Some Finished => ret tt
    | Some (Failed e) => raise e
    | _ =>
        match timeout with
        | Some t => elapse (if Qltb t 0 then 0 else t)%Q;; raise WaitTimeoutError
        | None => hang
        end
    end.

(** [threading.Thread(target=body).start()]: the thread is run to its end
    where it is started; an exception that escapes its body ends the
    thread and nothing else. *)
Definition thread_start (body : M world unit) : M world unit :=
  λ w, (Ok tt, snd (body w)).

End World.

(** ** The base class [Daq] *)
Module Daq.

(** What a subclass fixes in its class body. *)
Record class_info := Class {
  components : list component;
  requires_configure_transition : list string;
}.

(** The methods [Daq.begin] calls on [self] and a subclass implements. *)
Record methods `{Pydaq} := Methods {
  kickoff : kwargs → M world nat;
  wait : option Q → bool → M world unit;
  stop : M world unit;
  end_run : M world unit;
}.

(** What [getattr] finds: a signal made from a component of the class, or
    something set on the object from outside. *)
Inductive attribute :=
| ACpt (c : component)
| AExtra (name : string) (o : pyobj).

Section Methods.
Context `{Pydaq}.
Variable cls : class_info.

(** [getattr(self, name)], for a name that is no method, property or
    plain attribute of the class: a component, or else an attribute set
    from outside, or else [AttributeError]. *)
Definition getattr (name : string) : M world attribute :=
  match find (λ c, String.eqb (cpt_attr c) name) (components cls) with
  | Some c => ret (ACpt c)
  | None =>
      o ← gets (λ w, extra_attrs w !! name);
      match o with
      | Some o => ret (AExtra name o)
      | None => raise (AttributeError name)
      end
  end.

(** [sig.get()] *)
Definition signal_get (a : attribute) : M world pyval :=
  match a with
  | ACpt c => gets (λ w, default (cpt_value c) (puts w !! cpt_attr c))
  | AExtra _ (OSignal _ v) => ret v
  | AExtra _ _ => raise (AttributeError "get")
  end.

(** [sig.put(value)] *)
Definition signal_put (a : attribute) (value : pyval) : M world unit :=
  match a with
  | ACpt c => modify (set_puts (<[cpt_attr c := value]>))
  | AExtra name (OSignal k _) =>
      modify (set_extra_attrs (<[name := OSignal k value]>))
  | AExtra _ _ => raise (AttributeError "put")
  end.

(** [isinstance(sig, Signal) and sig.kind == 'config'], taken to hold of
    the signals declared with [kind='config']. *)
Definition is_config_signal (a : attribute) : bool :=
  match a with
  | ACpt c => match cpt_kind c with config => true | _ => false end
  | AExtra _ (OSignal config _) => true
  | AExtra _ _ => false
  end.

(** [self.<attr>.get()] and [self.<attr>.put(value)] *)
Definition get (attr : string) : M world pyval :=
  a ← getattr attr; signal_get a.
Definition put (attr : string) (value : pyval) : M world unit :=
  a ← getattr attr; signal_put a value.

Definition configured : M world pyval := get "configured_sig".

Definition is_config (c : component) : bool :=
  match cpt_kind c with config => true | _ => false end.

Definition default_config : list (string * pyval) :=
  (λ c, (cpt_name c, cpt_value c)) <$> filter (λ c, is_config c = true) (components cls).

(** [read_configuration()], without the time stamps. *)
Definition read_configuration : M world (list (string * pyval)) :=
  gets (λ w, (λ c, (cpt_name c, default (cpt_value c) (puts w !! cpt_attr c)))
               <$> filter (λ c, is_config c = true) (components cls)).

Definition config : M world (list (string * pyval)) :=
  c ← configured;
  if truthy c then read_configuration else ret default_config.

(** [d[key]] *)
Definition getitem (d : list (string * pyval)) (key : string) : M world pyval :=
  match find (λ kv, String.eqb (fst kv) key) d with
  | Some kv => ret (snd kv)
  | None => raise (KeyError key)
  end.

(** [Daq.preconfig]; the calls that only log are left out. *)
Fixpoint preconfig (kw : kwargs) : M world unit :=
  match kw with
  | [] => ret tt
  | (key, CONFIG_VAL) :: rest => preconfig rest
  | (key, Given value) :: rest =>
      sig ← try_except (getattr (key ++ "_cfg")) is_AttributeError
               (λ _, raise (ValueError ("Did not find config parameter " ++ key)));
      (if is_config_signal sig then signal_put sig value
       else raise (ValueError (key ++ " is not a config parameter!")));;
      when (bool_decide (key ∈ requires_configure_transition cls))
        (modify (set_queue_configure_transition true));;
      preconfig rest
  end.

(** [Daq.configure], with the [preconfig] of the subclass. *)
Definition configure (self_preconfig : kwargs → M world unit) (kw : kwargs)
  : M world (list (string * pyval) * list (string * pyval)) :=
  old ← read_configuration;
  self_preconfig kw;;
  new ← read_configuration;
  ret (old, new).

(** A timeout or sleep length read from a signal. *)
Definition as_timeout (v : pyval) : M world (option Q) :=
  match v with
  | VNone => ret None
  | _ => match as_number v with
         | Some q => ret (Some q)
         | None => raise (TypeError "timeout is not a number")
         end
  end.

Definition sleep_value (v : pyval) : M world unit :=
  match as_number v with
  | Some q => time_sleep q
  | None => raise (TypeError "sleep length is not a number")
  end.

Section Virtual.
Variable self : methods.

Definition begin (wait end_run : bool) (kw : kwargs) : M world unit :=
  try_except
    (kickoff_status ← kickoff self kw;
     try_except
       (tmo ← get "begin_timeout_cfg"; tmo ← as_timeout tmo;
        status_wait kickoff_status tmo)
       is_timeout
       (λ _, raise (DaqTimeoutError "Timeout waiting for daq to begin."));;
     s ← get "begin_sleep_cfg"; sleep_value s;;
     if wait then Daq.wait self None end_run
     else if end_run then thread_start (Daq.wait self None end_run)
     else ret tt)
    is_KeyboardInterrupt
    (λ _, if end_run then Daq.end_run self else Daq.stop self).

End Virtual.

(** [pause] and [resume], with the [state], [stop] and [begin] of the
    subclass. *)
Definition pause (self_state : M world string) (self_stop : M world unit)
  : M world unit :=
  s ← self_state;
  when (String.eqb s "Running") self_stop.

Definition resume (self_state : M world string) (self_begin : M world unit)
  : M world unit :=
  s ← self_state;
  when (String.eqb s "Open") self_begin.

End Methods.
End Daq.

(** ** The synchronous backend, [DaqLCLS1] *)
Module DaqLCLS1.

Definition use_l3t_cfg : component := Cpt "use_l3t_cfg" "use_l3t" config (VBool false).

(** The class body: the components of [Daq] and [use_l3t_cfg] (the
    redeclared [begin_sleep_cfg] is the one of [Daq]), and
    [requires_configure_transition]. *)
Definition cls : Daq.class_info :=
  Daq.Class (Daq_components ++ [use_l3t_cfg])%list ["record"; "use_l3t"].

(** A plain [enum.Enum], made by the functional API: it has the look-up
    by value and the names, and none of the helpers of [HelpfulIntEnum]. *)
Definition state_enum : HelpfulIntEnum.enum :=
  HelpfulIntEnum.functional "PydaqState"
    ["Disconnected"; "Connected"; "Configured"; "Open"; "Running"] 0.

(** [name in ('a', 'b', ...)] *)
Definition among (names : list string) (name : string) : bool :=
  existsb (String.eqb name) names.

(** ['query' in str(exc)] *)
Definition contains (needle hay : string) : bool :=
  match String.index 0 needle hay with Some _ => true | None => false end.

(** [s.lower()] on ASCII. *)
Definition lower_ascii (c : ascii) : ascii :=
  let n := nat_of_ascii c in
  if ((65 <=? n) && (n <=? 90))%nat then ascii_of_nat (n + 32) else c.
Fixpoint lower (s : string) : string :=
  match s with
  | EmptyString => EmptyString
  | String c s' => String (lower_ascii c) (lower s')
  end.

Definition reset_begin : begin_snapshot :=
  Snapshot (Given VNone) (Given VNone) (Given VNone) (Given VNone).

(** [val = val[0]], left alone when that raises. *)
Definition first_of (r : reading) : reading :=
  match r with
  | Sequence (x :: _) => Scalar x
  | _ => r
  end.

Definition read_device (d : device) : reading :=
  first_of (default (dev_get d) (dev_position d)).

(** [_ctrl_arg]: with something that is neither a list nor a dict, [names]
    is not bound when the loop starts. *)
Definition _ctrl_arg (controls : pyval) : result (list (string * reading)) :=
  match controls with
  | VList devices => Ok ((λ d, (dev_name d, read_device d)) <$> devices)
  | VDict devices => Ok ((λ kv, (fst kv, read_device (snd kv))) <$> devices)
  | _ => Raise (NameError "local variable 'names' referenced before assignment")
  end.

Definition _config_args (record use_l3t controls : pyval) : result config_args :=
  let record := if is_None record then None else Some (truthy record) in
  let l3t := if truthy use_l3t then Some 0 else None in
  let events := if truthy use_l3t then None else Some 0 in
  if is_None controls then Ok (ConfigArgs record l3t events None)
  else c ← _ctrl_arg controls; Ok (ConfigArgs record l3t events (Some c)).

(** [duration not in (None, _CONFIG_VAL) and duration < 1] raises. *)
Definition _check_duration (duration : arg) : result unit :=
  match duration with
  | CONFIG_VAL => Ok tt
  | Given v =>
      if py_eq v VNone then Ok tt
      else match as_number v with
           | Some q =>
               if Qltb q 1
               then Raise (RuntimeError "Duration argument less than 1 is unreliable. Please use the events argument to specify the length of very short runs.")
               else Ok tt
           | None => Raise (TypeError "'<' not supported")
           end
  end.

(** [bool(x)] of an argument: the sentinel is an [object()], which is
    true. *)
Definition truthy_arg (a : arg) : bool :=
  match a with CONFIG_VAL => true | Given v => truthy v end.

Section Methods.
Context `{Pydaq}.

(** The object [__init__] builds, at time [t0], with the user interrupting
    the coming waits as [user] says. *)
Definition __init__ (hutch_name : option string) (t0 : Q) (user : list bool)
  : world :=
  World ∅ true None reset_begin 0%Q false hutch_name ∅ t0 [] [] user.

Definition connected : M world bool :=
  gets (λ w, match _control w with Some _ => true | None => false end).

(** The [state] property. *)
Definition state : M world string :=
  c ← connected;
  if (c : bool) then
    num ← call_control RpcState
            (λ c, let '(n, c') := control_state c in (Ok n, c'));
    e ← Daq.getattr cls "_state_enum";
    match e with
    | Daq.AExtra _ (OEnum e) =>
        member ← lift_result (HelpfulIntEnum.call e (HelpfulIntEnum.Ordinal num));
        match HelpfulIntEnum.name_of e member with
        | Some name => ret name
        | None => raise (AttributeError "name")
        end
    | _ => raise (TypeError "object is not callable")
    end
  else ret "Disconnected".

(** One turn of the loop of [connect]: the body of the [try]. *)
Definition connect_attempt (plat : Z) : M world unit :=
  control ← lift_result (Control_new hostname plat);
  modify (set_control (Some control));;
  call_control RpcConnect control_connect.

(** The loop over the platforms; returns [(err, conn)]. *)
Fixpoint connect_loop (plats : list Z) (err : bool) : M world (bool * bool) :=
  match plats with
  | [] => ret (err, false)
  | plat :: rest =>
      failed ← try_except (connect_attempt plat;; ret None) is_Exception
                 (λ exc, ret (Some (contains "query" (exn_str exc))));
      match failed with
      | None => ret (err, true)
      | Some query => connect_loop rest (err || query)
      end
  end.

Definition connect : M world unit :=
  c ← connected;
  if (c : bool) then ret tt
  else
    r ← connect_loop [0; 1; 2; 3; 4; 5] false;
    let err := fst r || negb (fst r || snd r) in
    when err (modify (set_control None)).

(** The decorator [check_connect]. *)
Definition check_connect {A} (f : M world A) : M world A :=
  c ← connected;
  when (negb c) connect;;
  c ← connected;
  if (c : bool) then f else raise (RuntimeError "Could not connect to DAQ").

Definition _reset_begin : M world unit := modify (set_begin reset_begin).

Definition stop : M world unit :=
  check_connect
    (call_control RpcStop control_stop;;
     _reset_begin;;
     t ← time_time;
     modify (set_last_stop t)).

Definition end_run : M world unit :=
  check_connect (stop;; call_control RpcEndrun control_endrun).

Definition preconfig (events duration record use_l3t controls begin_sleep : arg)
    (show_queued_cfg : bool) : M world unit :=
  (* Only one of (events, duration) should be preconfigured. *)
  let duration := match events with CONFIG_VAL => duration | Given _ => CONFIG_VAL end in
  Daq.preconfig cls
    [("events", events); ("duration", duration); ("record", record);
     ("use_l3t", use_l3t); ("controls", controls); ("begin_sleep", begin_sleep)].

(** [preconfig] as [Daq.configure] calls it, with a dictionary. *)
Definition preconfig_kw (show_queued_cfg : bool) (kw : kwargs) : M world unit :=
  p ← lift_result (bind_kwargs "preconfig"
        ["events"; "duration"; "record"; "use_l3t"; "controls"; "begin_sleep"] kw);
  preconfig (p "events") (p "duration") (p "record") (p "use_l3t")
    (p "controls") (p "begin_sleep") show_queued_cfg.

(** [configure] from the line after [state = self.state] on. *)
Definition configure_in_state (state : string)
    (events duration record use_l3t controls begin_sleep : arg)
  : M world (list (string * pyval) * list (string * pyval)) :=
  if negb (among ["Connected"; "Configured"] state)
  then raise (StateTransitionError ("Cannot configure from state " ++ state ++ "!"))
  else
    lift_result (_check_duration duration);;
    old_new ← Daq.configure cls (preconfig_kw false)
      [("events", events); ("duration", duration); ("record", record);
       ("use_l3t", use_l3t); ("controls", controls); ("begin_sleep", begin_sleep)];
    config ← Daq.config cls;
    events ← Daq.getitem config "events";
    duration ← Daq.getitem config "duration";
    record ← Daq.getitem config "record";
    use_l3t ← Daq.getitem config "use_l3t";
    controls ← Daq.getitem config "controls";
    begin_sleep ← Daq.getitem config "begin_sleep";
    config_args ← lift_result (_config_args record use_l3t controls);
    try_except
      (call_control (RpcConfigure config_args) (control_configure config_args);;
       modify (set_queue_configure_transition false);;
       Daq.put cls "configred_sig" (VBool true))
      is_Exception
      (λ _, raise (RuntimeError "Failed to configure!"));;
    ret old_new.

Definition configure (events duration record use_l3t controls begin_sleep : arg)
  : M world (list (string * pyval) * list (string * pyval)) :=
  check_connect
    (state ← state;
     configure_in_state state events duration record use_l3t controls begin_sleep).

(** [self.config[key]] *)
Definition config_item (key : string) : M world pyval :=
  config ← Daq.config cls; Daq.getitem config key.

(** [int(duration)] and [int((duration - secs) * 1e9)], on exact
    rationals: the code computes on binary floating point, where the
    product can fall just below the exact value and the nanoseconds come
    out one less (299999999 for a duration of 2.3, against 300000000
    here). *)
Definition secs_nsec (duration : pyval) : M world (Z * Z) :=
  match as_number duration with
  | Some q =>
      let secs := Qtruncate q in
      ret (secs, Qtruncate ((q - inject_Z secs) * 1000000000)%Q)
  | None => raise (TypeError "int() argument must be a number")
  end.

Definition _begin_args (events duration use_l3t controls : arg)
  : M world begin_args :=
  ev_du ← match events, duration with
          | CONFIG_VAL, CONFIG_VAL =>
              (* If both are omitted, use last configured values *)
              e ← config_item "events";
              d ← config_item "duration";
              ret (Given e, Given d)
          | _, _ => ret (events, duration)
          end;
  let events := fst ev_du in
  let duration := snd ev_du in
  args ← match events, duration with
         | Given e, _ =>
             if in_None_CONFIG_VAL events then
               match duration with
               | Given d =>
                   if in_None_CONFIG_VAL duration
                   then ret (BeginArgs (Some (VInt 0)) None None None)
                   else sn ← secs_nsec d; ret (BeginArgs None None (Some sn) None)
               | CONFIG_VAL => ret (BeginArgs (Some (VInt 0)) None None None)
               end
             else
               configured ← Daq.configured cls;
               use_l3t ←
                 (if in_None_CONFIG_VAL use_l3t && truthy configured
                  then u ← config_item "use_l3t"; ret (Given u)
                  else ret use_l3t);
               if truthy_arg use_l3t then ret (BeginArgs None (Some e) None None)
               else ret (BeginArgs (Some e) None None None)
         | CONFIG_VAL, Given d =>
             if in_None_CONFIG_VAL duration
             then ret (BeginArgs (Some (VInt 0)) None None None)
             else sn ← secs_nsec d; ret (BeginArgs None None (Some sn) None)
         | CONFIG_VAL, CONFIG_VAL =>
             ret (BeginArgs (Some (VInt 0)) None None None)
         end;
  controls ← match controls with
             | CONFIG_VAL => config_item "controls"
             | Given c => ret c
             end;
  if is_None controls then ret args
  else
    c ← lift_result (_ctrl_arg controls);
    ret (BeginArgs (bgn_events args) (bgn_l3t_events args) (bgn_duration args) (Some c)).

(** [self._events] and [self._duration]: [None] is [VNone]. *)
Definition _events : M world pyval :=
  b ← gets _begin;
  match snap_events b with
  | CONFIG_VAL => config_item "events"
  | Given v => ret v
  end.

Definition _duration : M world pyval :=
  b ← gets _begin;
  match snap_duration b with
  | CONFIG_VAL => config_item "duration"
  | Given v => ret v
  end.

Definition _infinite_run : M world bool :=
  e ← _events;
  if is_None e then
    d ← _duration;
    if is_None d then ret true
    else e ← _events; ret (py_eq e (VInt (-1)) || py_eq e (VInt 0))
  else e ← _events; ret (py_eq e (VInt (-1)) || py_eq e (VInt 0)).

(** The worker of [_get_end_status]. *)
Definition finish_thread (status : nat) : M world unit :=
  try_except (call_control RpcEnd control_end) is_RuntimeError (λ _, ret tt);;
  t ← time_time;
  modify (set_last_stop t);;
  _reset_begin;;
  status_set_finished status.

Definition _get_end_status : M world nat :=
  events ← _events;
  duration ← _duration;
  infinite ← _infinite_run;
  if negb infinite then
    end_status ← Status_new;
    thread_start (finish_thread end_status);;
    ret end_status
  else
    status ← Status_new;
    status_set_finished status;;
    ret status.

Definition wait (timeout : option Q) (end_run' : bool) : M world unit :=
  check_connect
    (s ← state;
     (if String.eqb s "Running" then
        infinite ← _infinite_run;
        if negb infinite then
          status ← _get_end_status;
          try_except (status_wait status timeout) is_timeout
            (λ _, raise (DaqTimeoutError "Timeout waiting for daq to finish acquiring."))
        else raise (RuntimeError "Cannot wait, daq configured to run forever.")
      else ret tt);;
     when end_run' end_run).

Definition valid_hutches : list string :=
  ["amo"; "sxr"; "xpp"; "xcs"; "mfx"; "cxi"; "mec"; "tst"].

(** [run_number]; [ext_scripts] has no [get_hutch_name]. *)
Definition run_number (hutch_name' : option string) : M world Z :=
  try_except
    (own ← gets hutch_name;
     let hutch_name :=
       match hutch_name' with
       | Some h => if String.eqb h "" then own else Some h
       | None => own
       end in
     hutch_name ← match hutch_name with
                  | Some h => ret h
                  | None => raise (AttributeError "module 'pcdsdaq.ext_scripts' has no attribute 'get_hutch_name'")
                  end;
     let hutch_name := lower hutch_name in
     if negb (among valid_hutches hutch_name)
     then raise (ValueError (hutch_name ++ " is not a valid hutch, cannot determine run number"))
     else
       s ← state;
       live ← (if among ["Open"; "Running"] s
               then r ← config_item "record"; ret (truthy r)
               else ret false);
       lift_result (get_run_number hutch_name live))
    is_FileNotFoundError
    (λ _, raise (RuntimeError "No nfs access, cannot determine run number.")).

(** The loop of [start_thread] that waits for the peer to be ready.  It
    ends after at most [tmo / dt] turns; [fuel] bounds them.  The time
    left is an exact rational here; in the code it is a float, whose
    rounding lets the loop run one turn more (161 against 160 from 16
    seconds). *)
Fixpoint poll_ready (fuel : nat) (tmo : Q) : M world unit :=
  if Qltb 0 tmo then
    match fuel with
    | O => hang
    | S fuel =>
        s ← state;
        if among ["Configured"; "Open"] s then ret tt
        else poll_ready fuel (tmo - (1 # 10))%Q
    end
  else ret tt.

Definition _begin_timeout : Q := (inject_Z BEGIN_TIMEOUT + BEGIN_THROTTLE)%Q.

(** The worker of [kickoff]. *)
Definition start_thread (status : nat) (events duration use_l3t controls : arg)
    (run_number : option Z) : M world unit :=
  let tmo := _begin_timeout in
  s ← state;
  when (among ["Open"; "Running"] s) stop;;
  poll_ready (Z.to_nat (Qceiling (tmo * 10)%Q)) tmo;;
  s ← state;
  if among ["Configured"; "Open"] s then
    begin_args ← _begin_args events duration use_l3t controls;
    t ← time_time;
    last_stop ← gets _last_stop;
    let dt := (t - last_stop)%Q in
    let tmo := (BEGIN_THROTTLE - dt)%Q in
    when (Qltb 0 tmo) (time_sleep tmo);;
    call_control (RpcBegin begin_args) (control_begin begin_args);;
    modify (set_begin (Snapshot events duration use_l3t controls));;
    status_set_finished status
  else
    status_set_exception status (RuntimeError "Daq begin failed!").

(** The body of [kickoff]. *)
Definition kickoff_body (events duration use_l3t controls : arg) : M world nat :=
  lift_result (_check_duration duration);;
  queued ← gets _queue_configure_transition;
  configured ← Daq.configured cls;
  when (queued || negb (truthy configured))
    (try_except
       (configure CONFIG_VAL CONFIG_VAL CONFIG_VAL CONFIG_VAL CONFIG_VAL CONFIG_VAL;;
        ret tt)
       is_StateTransitionError
       (λ _, raise (StateTransitionError "Illegal reconfigure during an open run. End the current run with daq.end_run() before running with a new configuration")));;
  s ← state;
  record ← config_item "record";
  failed ← gets _check_run_number_has_failed;
  next_run ←
    (if String.eqb s "Configured" && truthy record && negb failed then
       try_except (prev_run ← run_number None; ret (Some (prev_run + 1)))
         is_Exception
         (λ _, modify (set_check_run_number_has_failed true);; ret None)
     else ret None);
  begin_status ← Status_new;
  thread_start (start_thread begin_status events duration use_l3t controls next_run);;
  ret begin_status.

(** [kickoff] as [Daq.begin] calls it: the decorator takes any keyword,
    the function under it only four. *)
Definition kickoff (kw : kwargs) : M world nat :=
  check_connect
    (p ← lift_result (bind_kwargs "kickoff"
          ["events"; "duration"; "use_l3t"; "controls"] kw);
     kickoff_body (p "events") (p "duration") (p "use_l3t") (p "controls")).

(** [complete] *)
Definition complete : M world nat :=
  end_status ← _get_end_status;
  infinite ← _infinite_run;
  when infinite stop;;
  ret end_status.

Definition self : Daq.methods :=
  {| Daq.kickoff := kickoff; Daq.wait := wait;
     Daq.stop := stop; Daq.end_run := end_run |}.

(** [self.record] *)
Definition record : M world pyval := Daq.get cls "record_cfg".

Definition begin (events duration record' use_l3t controls : arg)
    (wait' end_run' : bool) : M world unit :=
  current ← record;
  let old_record :=
    match record' with
    | Given r => if negb (py_eq r current) then Some current else None
    | CONFIG_VAL => None
    end in
  try_finally
    (when (bool_decide (old_record ≠ None))
       (preconfig CONFIG_VAL CONFIG_VAL record' CONFIG_VAL CONFIG_VAL CONFIG_VAL false);;
     Daq.begin cls self wait' false
       [("events", events); ("duration", duration); ("record", record');
        ("use_l3t", use_l3t); ("controls", controls)])
    (match old_record with
     | Some old_record =>
         preconfig CONFIG_VAL CONFIG_VAL (Given old_record) CONFIG_VAL CONFIG_VAL
           CONFIG_VAL false
     | None => (* NameError: pass *) ret tt
     end).

Definition begin_infinite (record' use_l3t controls : arg) : M world unit :=
  begin (Given (VInt 0)) CONFIG_VAL record' use_l3t controls false false.

Definition pause : M world unit := Daq.pause state stop.

Definition resume : M world unit :=
  Daq.resume state
    (begin CONFIG_VAL CONFIG_VAL CONFIG_VAL CONFIG_VAL CONFIG_VAL false false).

End Methods.
End DaqLCLS1.

(** ** A simulated peer

    The environment of the examples: a peer that accepts every call and
    moves between the five states as the calls ask, a throttle of one
    second, calls that take ten milliseconds, sleeps that are exact. *)
Module Sim.

Definition accept (next : Z → Z) (c : Z) : result unit * Z := (Ok tt, next c).

Program Definition pydaq : Pydaq := {|
  Control := Z;
  Control_new := λ _ _, Ok 0;
  control_connect := accept (λ _, 1);
  control_disconnect := accept (λ _, 0);
  control_state := λ c, (c, c);
  control_configure := λ _, accept (λ _, 2);
  control_begin := λ _, accept (λ _, 4);
  control_stop := accept (λ c, if 3 <=? c then 3 else c);
  control_end := accept (λ c, if 3 <=? c then 3 else c);
  control_endrun := accept (λ c, if 3 <=? c then 2 else c);
  hostname := "daq-host";
  BEGIN_THROTTLE := 1%Q;
  rpc_latency := (1 # 100)%Q;
  oversleep := 0%Q;
  get_run_number := λ _ _, Ok 41;
|}.
Next Obligation. done. Qed.
Next Obligation. done. Qed.

(** A freshly built object, then connected to a peer in state [s]. *)
Definition fresh : @world pydaq := @DaqLCLS1.__init__ pydaq None 0%Q [].
Definition connected_in (s : Z) : @world pydaq := @set_control pydaq (Some s) fresh.

(** The same with the attribute [_state_enum] set on the object to the
    [state_enum] of the class. *)
Definition patched_in (s : Z) : @world pydaq :=
  @set_extra_attrs pydaq (<["_state_enum" := OEnum DaqLCLS1.state_enum]>)
    (connected_in s).

(** The same with, in addition, a signal set on the object under the name
    [configred_sig]. *)
Definition repaired_in (s : Z) : @world pydaq :=
  @set_extra_attrs pydaq (<["configred_sig" := OSignal normal (VBool false)]>)
    (patched_in s).

(** The same peer on a host where the platforms answer the attempt to
    build a [Control] as [new] says. *)
Program Definition peer (new : Z → result Z) : Pydaq := {|
  Control := Z;
  Control_new := λ _ plat, new plat;
  control_connect := accept (λ _, 1);
  control_disconnect := accept (λ _, 0);
  control_state := λ c, (c, c);
  control_configure := λ _, accept (λ _, 2);
  control_begin := λ _, accept (λ _, 4);
  control_stop := accept (λ c, if 3 <=? c then 3 else c);
  control_end := accept (λ c, if 3 <=? c then 3 else c);
  control_endrun := accept (λ c, if 3 <=? c then 2 else c);
  hostname := "daq-host";
  BEGIN_THROTTLE := 1%Q;
  rpc_latency := (1 # 100)%Q;
  oversleep := 0%Q;
  get_run_number := λ _ _, Ok 41;
|}.
Next Obligation. done. Qed.
Next Obligation. done. Qed.

(** The same peer with a user who presses ctrl+c while [Control.connect()]
    runs: the call is left by [KeyboardInterrupt]. *)
Program Definition interrupted_while_connecting : Pydaq := {|
  Control := Z;
  Control_new := λ _ _, Ok 0;
  control_connect := λ c, (Raise KeyboardInterrupt, c);
  control_disconnect := accept (λ _, 0);
  control_state := λ c, (c, c);
  control_configure := λ _, accept (λ _, 2);
  control_begin := λ _, accept (λ _, 4);
  control_stop := accept (λ c, if 3 <=? c then 3 else c);
  control_end := accept (λ c, if 3 <=? c then 3 else c);
  control_endrun := accept (λ c, if 3 <=? c then 2 else c);
  hostname := "daq-host";
  BEGIN_THROTTLE := 1%Q;
  rpc_latency := (1 # 100)%Q;
  oversleep := 0%Q;
  get_run_number := λ _ _, Ok 41;
|}.
Next Obligation. done. Qed.
Next Obligation. done. Qed.

(** No DAQ runs on the host. *)
Definition refused (plat : Z) : result Z :=
  Raise (PeerException "Connection refused").

(** Platform 0 is there but not allocated; platform 1 accepts. *)
Definition unallocated_then_free (plat : Z) : result Z :=
  if plat =? 0 then Raise (PeerException "Daq query failed: not allocated")
  else Ok 0.

End Sim.
(** * Properties *)

(** ** The enumeration helpers *)
Module HelpfulIntEnumFacts.
Import HelpfulIntEnum.

(** The state vocabulary that the [psdaq] package ships. *)
Definition PsdaqState : enum :=
  functional "PsdaqState"
    ["reset"; "unallocated"; "allocated"; "connected"; "configured";
     "starting"; "paused"; "running"] 1.

(** The calls of the module, [self.state_enum.from_any('reset')] of
    [__init__] and [self.state_enum.include(['paused', 'running'])] of
    [stop]. *)
Example from_any_on_the_class :
  method "from_any" "identifier" from_any (Class PsdaqState) (Name "reset")
  = Raise (TypeError "HelpfulIntEnum.from_any() missing 1 required positional argument: 'identifier'").
Proof. reflexivity. Qed.
Example include_on_the_class :
  method "include" "identifiers" include (Class PsdaqState)
    [Name "paused"; Name "running"]
  = Raise (TypeError "HelpfulIntEnum.include() missing 1 required positional argument: 'identifiers'").
Proof. reflexivity. Qed.
Example exclude_on_the_class :
  method "exclude" "identifiers" exclude (Class PsdaqState) []
  = Raise (TypeError "HelpfulIntEnum.exclude() missing 1 required positional argument: 'identifiers'").
Proof. reflexivity. Qed.

(** The functions taken from the base class, with the class passed for
    [self]: [HelpfulIntEnum.from_any(PsdaqState, 'paused')] and so on. *)
Example from_any_by_name : from_any (Class PsdaqState) (Name "paused") = Ok 7.
Proof. reflexivity. Qed.
Example from_any_by_ordinal : from_any (Class PsdaqState) (Ordinal 7) = Ok 7.
Proof. reflexivity. Qed.
Example from_any_unknown :
  from_any (Class PsdaqState) (Name "Paused")
  = Raise (ValueError "'Paused' is not a valid PsdaqState").
Proof. reflexivity. Qed.
Example include_with_the_class :
  include (Class PsdaqState) [Name "paused"; Name "running"]
  = Raise (TypeError "HelpfulIntEnum.from_any() missing 1 required positional argument: 'identifier'").
Proof. reflexivity. Qed.
Example exclude_with_the_class :
  exclude (Class PsdaqState) []
  = Raise (TypeError "HelpfulIntEnum.include() missing 1 required positional argument: 'identifiers'").
Proof. reflexivity. Qed.

(** On a member ([PsdaqState.paused.include(['running'])]). *)
Example include_on_a_member :
  method "include" "identifiers" include (Member PsdaqState 7) [Name "running"]
  = Raise (TypeError "'PsdaqState' object is not subscriptable").
Proof. reflexivity. Qed.
Example exclude_on_a_member :
  method "exclude" "identifiers" exclude (Member PsdaqState 7) []
  = Raise (AttributeError "'PsdaqState' object has no attribute '__members__'").
Proof. reflexivity. Qed.

(** [self.from_any(ident)] inside [include] never returns: on the class
    the identifier is taken for [self], on a member [self[identifier]]
    fails. *)
Lemma from_any_inside_include self i :
  ∃ msg, method "from_any" "identifier" from_any self i = Raise (TypeError msg).
Proof. destruct self as [e|e v]; simpl; eauto. Qed.

Lemma include_nil self : include self [] = Ok ∅.
Proof. reflexivity. Qed.

Lemma include_cons self i ids :
  ∃ msg, include self (i :: ids) = Raise (TypeError msg).
Proof.
  unfold include. simpl.
  destruct (from_any_inside_include self i) as [msg ->]. simpl. eauto.
Qed.

Lemma include_cons_Class e i ids :
  include (Class e) (i :: ids) = Raise (missing "from_any" "identifier").
Proof. reflexivity. Qed.

Lemma exclude_Class e ids :
  exclude (Class e) ids = Raise (missing "include" "identifiers").
Proof. reflexivity. Qed.

Lemma exclude_raises self ids :
  ∃ x, exclude self ids = Raise x ∧ (is_TypeError x || is_AttributeError x) = true.
Proof. destruct self as [e|e v]; simpl; eauto. Qed.

(** C8, as the code has it: [include] and [exclude] return no partition
    of the vocabulary.  Called on the enumeration class, as [stop],
    [end_run] and [get_done_status] call them, either raises [TypeError]
    for every list of identifiers, because the list is taken for [self].
    Entered with the class or a member for [self], [include] returns
    only for the empty list (the empty set) and raises [TypeError] at the
    first identifier otherwise, and [exclude] raises for every list, the
    empty one included; so no list of identifiers gets the two sets. *)
Theorem include_exclude_raise (e : enum) (ids : list identifier) :
  method "include" "identifiers" include (Class e) ids
  = Raise (missing "include" "identifiers") ∧
  method "exclude" "identifiers" exclude (Class e) ids
  = Raise (missing "exclude" "identifiers") ∧
  (∀ self : receiver,
     match ids with
     | [] => include self ids = Ok ∅
     | _ :: _ => ∃ msg, include self ids = Raise (TypeError msg)
     end ∧
     ∃ x, exclude self ids = Raise x
          ∧ (is_TypeError x || is_AttributeError x) = true) ∧
  include (Class e) ids
  = match ids with
    | [] => Ok ∅
    | _ :: _ => Raise (missing "from_any" "identifier")
    end ∧
  exclude (Class e) ids = Raise (missing "include" "identifiers").
Proof.
  split; [done|]. split; [done|]. split; [|split].
  - intros self. split; [|apply exclude_raises].
    destruct ids as [|i ids]; [apply include_nil|apply include_cons].
  - by destruct ids.
  - apply exclude_Class.
Qed.

End HelpfulIntEnumFacts.

(** ** The asynchronous backend *)
Module DaqLCLS2Facts.
Import HelpfulIntEnum DaqLCLS2.

Section Backend.
Context `{Psdaq}.

Ltac run_monad :=
  unfold check_state, check_transition, success, set_finished, try_except,
    run_cb, mbind, M_bind, bind, gets, modify, ret, mret, M_ret in *;
  simpl in *.

(** The callbacks never touch the parameters of the token. *)
Definition same_parameters (tk tk' : token) : Prop :=
  tk_state tk' = tk_state tk ∧ tk_transition tk' = tk_transition tk ∧
  tk_check_now tk' = tk_check_now tk ∧ tk_timeout tk' = tk_timeout tk.

Lemma check_state_parameters tk v old :
  same_parameters tk (run_cb (check_state v old) tk).
Proof.
  run_monad.
  destruct (bool_decide (v = old) && negb (tk_check_now tk)); [done|].
  destruct (bool_decide _ && bool_decide _); [|done].
  destruct (status tk) eqn:E; simpl; [|done..].
  unfold complete_with; simpl. by destruct (callbacks tk).
Qed.

Lemma check_transition_parameters tk v old :
  same_parameters tk (run_cb (check_transition v old) tk).
Proof.
  run_monad.
  destruct (bool_decide (v = old) && negb (tk_check_now tk)); [done|].
  destruct (bool_decide _ && bool_decide _); [|done].
  destruct (status tk) eqn:E; simpl; [|done..].
  unfold complete_with; simpl. by destruct (callbacks tk).
Qed.

(** *** The target sets of [get_status_for] *)

Lemma target_set_None e : target_set e None = Ok {[ None ]}.
Proof. reflexivity. Qed.

Lemma target_set_nil e : target_set e (Some []) = Ok ∅.
Proof. reflexivity. Qed.

Lemma target_set_cons e i ids :
  target_set e (Some (i :: ids)) = Raise (missing "from_any" "identifier").
Proof. reflexivity. Qed.

(** A target set that is built holds no member of the vocabulary. *)
Lemma target_set_no_member e arg S v :
  target_set e arg = Ok S → Some v ∉ S.
Proof.
  destruct arg as [[|i ids]|]; simpl; [| |]; intros [= <-]; set_solver.
Qed.

(** The status that [make_token] appends has the two sets as its
    targets. *)
Lemma make_token_targets S T timeout check_now d :
  ∃ tk, make_token S T timeout check_now d
        = (Ok (length (tokens d)),
           Daq (state_sig d) (transition_sig d) (tokens d ++ [tk])
             (_control d) (requests d))
        ∧ tk_state tk = S ∧ tk_transition tk = T.
Proof.
  unfold make_token. eexists. split; [reflexivity|].
  set (tk0 := set_subscribed true false _).
  set (tk1 := subscribe_run check_now (state_sig d) check_state tk0).
  assert (H1 : same_parameters tk0 tk1).
  { unfold tk1, subscribe_run. destruct check_now; [|done].
    destruct (state_sig d) as [[v old]|]; [|done].
    apply check_state_parameters. }
  set (tk2 := set_subscribed (state_cbid tk1) true tk1).
  set (tk3 := subscribe_run check_now (transition_sig d) check_transition tk2).
  assert (H3 : same_parameters tk2 tk3).
  { unfold tk3, subscribe_run. destruct check_now; [|done].
    destruct (transition_sig d) as [[v old]|]; [|done].
    apply check_transition_parameters. }
  destruct H1 as (HS1 & HT1 & _), H3 as (HS3 & HT3 & _).
  unfold add_callback. destruct (status_done (status tk3)); simpl;
    rewrite HS3, HT3; simpl; by rewrite HS1, HT1.
Qed.

(** C1, as the code has it: [get_status_for] hands out no status for a
    set of states or of transitions.  With a non-empty list for either
    argument (and whatever the other argument, the timeout and
    [check_now]) it raises [TypeError] while it builds the target set,
    at the first [from_any], which is called on the enumeration class;
    no status is made, no callback is subscribed and the device is as it
    was.  The statuses it does hand out (each argument left out or empty)
    have no member of either vocabulary among their targets, so no
    sequence of state and transition events is one in which both the
    state and the transition asked for are observed. *)
Theorem get_status_for_raises_TypeError d i ids other timeout check_now :
  get_status_for (Some (i :: ids)) other timeout check_now d
  = (Raise (missing "from_any" "identifier"), d) ∧
  get_status_for other (Some (i :: ids)) timeout check_now d
  = (Raise (missing "from_any" "identifier"), d) ∧
  (∀ state transition h d1,
     get_status_for state transition timeout check_now d = (Ok h, d1) →
     (state = None ∨ state = Some []) ∧
     (transition = None ∨ transition = Some []) ∧
     ∃ tk, tokens d1 !! h = Some tk ∧
           (∀ v, Some v ∉ tk_state tk) ∧ (∀ v, Some v ∉ tk_transition tk)).
Proof.
  split; [done|]. split.
  - unfold get_status_for, mbind, M_bind, bind, lift_result.
    by destruct other as [[|j other]|].
  - intros state transition h d1.
    unfold get_status_for, mbind, M_bind, bind, lift_result.
    destruct (target_set state_enum state) as [S| |] eqn:HS; try discriminate.
    destruct (target_set transition_enum transition) as [T| |] eqn:HT;
      try discriminate.
    destruct (make_token_targets S T timeout check_now d)
      as (tk & -> & HtS & HtT).
    intros [= <- <-].
    split; [by destruct state as [[|? ?]|]; auto|].
    split; [by destruct transition as [[|? ?]|]; auto|].
    exists tk. split; [simpl; by rewrite list_lookup_middle|].
    rewrite HtS, HtT. split; intros v.
    + by eapply target_set_no_member.
    + by eapply target_set_no_member.
Qed.

(** *** [stop] and [end_run] *)

(** C7, as the code has it: [stop] and [end_run] raise [TypeError] in
    every state of the device, [paused], [running] and [starting] as
    well as any other, because [include] is called on the enumeration
    class; the peer is sent no request and the device is as it was. *)
Theorem stop_end_run_raise_TypeError d :
  stop d = (Raise (missing "include" "identifiers"), d) ∧
  end_run d = (Raise (missing "include" "identifiers"), d) ∧
  requests (snd (stop d)) = requests d ∧
  requests (snd (end_run d)) = requests d.
Proof. done. Qed.

End Backend.

(** On the simulated device: a status for state [starting] and
    transition [endstep], as [trigger] asks for one. *)
Example get_status_for_starting_endstep :
  @get_status_for sim_psdaq (Some [Name "starting"]) (Some [Name "endstep"])
    (Some 15%Q) false sim_running
  = (Raise (TypeError "HelpfulIntEnum.from_any() missing 1 required positional argument: 'identifier'"),
     sim_running).
Proof. reflexivity. Qed.

(** The device runs; [stop] and [end_run] send nothing. *)
Example stop_when_running :
  @stop sim_psdaq sim_running
  = (Raise (TypeError "HelpfulIntEnum.include() missing 1 required positional argument: 'identifiers'"),
     sim_running).
Proof. reflexivity. Qed.
Example end_run_when_running :
  @end_run sim_psdaq sim_running
  = (Raise (TypeError "HelpfulIntEnum.include() missing 1 required positional argument: 'identifiers'"),
     sim_running).
Proof. reflexivity. Qed.

End DaqLCLS2Facts.

(** ** The contract of [begin] *)
Module DaqFacts.

Section Begin.
Context `{Pydaq}.
Variable cls : Daq.class_info.
Variable self : Daq.methods.

(** [begin(wait=True, end_run=e)] from [w] is interrupted by the user in
    one of its two waits, the one for the status of [kickoff] or the one
    for the end of the acquisition, and the world is [wi] at that point. *)
Inductive interrupted_in_wait (e : bool) (kw : kwargs) (w : world)
  : world → Prop :=
| in_status_wait st w1 v w2 tmo w3 wi :
    Daq.kickoff self kw w = (Ok st, w1) →
    Daq.get cls "begin_timeout_cfg" w1 = (Ok v, w2) →
    Daq.as_timeout v w2 = (Ok tmo, w3) →
    status_wait st tmo w3 = (Raise KeyboardInterrupt, wi) →
    interrupted_in_wait e kw w wi
| in_wait st w1 v w2 tmo w3 w4 s w5 w6 wi :
    Daq.kickoff self kw w = (Ok st, w1) →
    Daq.get cls "begin_timeout_cfg" w1 = (Ok v, w2) →
    Daq.as_timeout v w2 = (Ok tmo, w3) →
    status_wait st tmo w3 = (Ok tt, w4) →
    Daq.get cls "begin_sleep_cfg" w4 = (Ok s, w5) →
    Daq.sleep_value s w5 = (Ok tt, w6) →
    Daq.wait self None e w6 = (Raise KeyboardInterrupt, wi) →
    interrupted_in_wait e kw w wi.

(** The handler of [Daq.begin]: a [begin] that the user interrupts in one
    of its waits goes on with [end_run] if it was given [end_run] and
    with [stop] if not, from the world as it is at the interrupt, and
    returns what that call returns. *)
Lemma Daq_begin_interrupted_in_wait e kw w wi :
  interrupted_in_wait e kw w wi →
  Daq.begin cls self true e kw w
  = (if e then Daq.end_run self else Daq.stop self) wi.
Proof.
  intros Hint. unfold Daq.begin.
  unfold mbind, M_bind, bind, try_except.
  destruct Hint as [st w1 v w2 tmo w3 wi Hk Hg Ht Hw
                   |st w1 v w2 tmo w3 w4 s w5 w6 wi Hk Hg Ht Hw Hs Hsl Hwait].
  - rewrite Hk, Hg, Ht, Hw. simpl. by destruct e.
  - rewrite Hk, Hg, Ht, Hw. simpl. rewrite Hs, Hsl, Hwait. simpl. by destruct e.
Qed.

(** The same when the interrupt arrives while [kickoff] runs. *)
Lemma Daq_begin_interrupted_in_kickoff wait e kw w wi :
  Daq.kickoff self kw w = (Raise KeyboardInterrupt, wi) →
  Daq.begin cls self wait e kw w
  = (if e then Daq.end_run self else Daq.stop self) wi.
Proof.
  intros Hk. unfold Daq.begin.
  unfold mbind, M_bind, bind, try_except.
  rewrite Hk. simpl. by destruct e.
Qed.

End Begin.

(** A backend whose [kickoff] hands out a status for its worker to
    complete; the rest is the synchronous backend. *)
Definition handing_out_a_status `{Pydaq} : Daq.methods :=
  {| Daq.kickoff := λ _, Status_new; Daq.wait := DaqLCLS1.wait;
     Daq.stop := DaqLCLS1.stop; Daq.end_run := DaqLCLS1.end_run |}.

End DaqFacts.

(** ** The synchronous backend *)
Module DaqLCLS1Facts.
Import DaqLCLS1.

Ltac run_monad :=
  unfold mbind, M_bind, bind, mret, M_ret, ret, raise, hang, gets, modify,
    lift_result, when, try_except, try_finally in *.

Section Backend.
Context `{Pydaq}.

(** *** Reading the state of a connected object *)

(** The world after a call to the peer [c] that leaves it as [c']. *)
Definition called (r : rpc) (c' : Control) (w : world) : world :=
  set_control (Some c')
    (set_now (now w + rpc_latency)%Q
       (set_trace (λ t, (t ++ [(now w, Call r)])%list) w)).

Lemma call_control_connected {A} r (f : Control → result A * Control) w c :
  _control w = Some c →
  call_control r f w = (fst (f c), called r (snd (f c)) w).
Proof.
  intros Hc. unfold call_control, call_peer, log, elapse. run_monad. simpl.
  rewrite Hc. simpl. by destruct (f c) as [[?| |] ?].
Qed.

(** The world after the state query of the [state] property. *)
Definition queried (w : world) (c : Control) : world :=
  called RpcState (snd (control_state c)) w.

(** On a connected object without an attribute [_state_enum], the property
    asks the peer and then fails on the attribute. *)
Lemma state_connected w c :
  _control w = Some c →
  extra_attrs w !! "_state_enum" = None →
  state w = (Raise (AttributeError "_state_enum"), queried w c).
Proof.
  intros Hc Hattr. unfold state, connected. run_monad. simpl. rewrite Hc.
  rewrite (call_control_connected _ _ w c Hc).
  destruct (control_state c) as [n c'] eqn:Hst. simpl.
  unfold Daq.getattr. run_monad. simpl. rewrite Hattr.
  unfold queried. by rewrite Hst.
Qed.

Lemma queried_connected w c : _control (queried w c) = Some (snd (control_state c)).
Proof. reflexivity. Qed.

Lemma check_connect_connected {A} (f : M world A) w c :
  _control w = Some c → check_connect f w = f w.
Proof.
  intros Hc. unfold check_connect, connected. run_monad. simpl.
  rewrite Hc. simpl. by rewrite Hc.
Qed.

Lemma check_connect_Ok {A} (f : M world A) w a w1 :
  check_connect f w = (Ok a, w1) → ∃ w', f w' = (Ok a, w1).
Proof.
  unfold check_connect, connected. run_monad. simpl.
  destruct (_control w) eqn:Hc; simpl.
  - rewrite Hc. eauto.
  - destruct (connect w) as [[[]|e|] w'']; simpl; try done.
    destruct (_control w''); [eauto|done].
Qed.

(** C9: on a connected object that has no attribute [_state_enum] (the
    class defines [state_enum] only, and nothing in it sets the other
    name), reading [state] raises [AttributeError] once the peer has been
    asked; [configure], [wait], [pause] and [resume] let that exception
    through, and so does the worker of [kickoff], whose thread ends on it
    without touching the status it was given. *)
Theorem state_raises_AttributeError w c :
  _control w = Some c →
  extra_attrs w !! "_state_enum" = None →
  let failed {A} : result A * world :=
    (Raise (AttributeError "_state_enum"), queried w c) in
  state w = failed ∧
  (∀ events duration record use_l3t controls begin_sleep,
     configure events duration record use_l3t controls begin_sleep w = failed) ∧
  (∀ timeout end_run, wait timeout end_run w = failed) ∧
  pause w = failed ∧
  resume w = failed ∧
  (∀ status events duration use_l3t controls run_number,
     start_thread status events duration use_l3t controls run_number w = failed ∧
     thread_start
       (start_thread status events duration use_l3t controls run_number) w
     = (Ok tt, queried w c)) ∧
  statuses (queried w c) = statuses w.
Proof.
  intros Hc Hattr failed.
  pose proof (state_connected w c Hc Hattr) as Hstate.
  split; [done|]. split; [|split; [|split; [|split; [|split]]]].
  - intros. unfold configure. rewrite (check_connect_connected _ w c Hc).
    run_monad. by rewrite Hstate.
  - intros. unfold wait. rewrite (check_connect_connected _ w c Hc).
    run_monad. by rewrite Hstate.
  - unfold pause, Daq.pause. run_monad. by rewrite Hstate.
  - unfold resume, Daq.resume. run_monad. by rewrite Hstate.
  - intros. unfold thread_start, start_thread. run_monad. by rewrite Hstate.
  - done.
Qed.

(** *** [preconfig] *)

Definition record_put (r : pyval) (w : world) : world :=
  set_queue_configure_transition true (set_puts (<["record_cfg" := r]>) w).

Lemma preconfig_record w r b :
  preconfig CONFIG_VAL CONFIG_VAL (Given r) CONFIG_VAL CONFIG_VAL CONFIG_VAL b w
  = (Ok tt, record_put r w).
Proof. reflexivity. Qed.

Lemma preconfig_events w e b :
  preconfig (Given e) CONFIG_VAL CONFIG_VAL CONFIG_VAL CONFIG_VAL CONFIG_VAL b w
  = (Ok tt, set_puts (<["events_cfg" := e]>) w).
Proof. reflexivity. Qed.

Lemma preconfig_duration w d b :
  preconfig CONFIG_VAL (Given d) CONFIG_VAL CONFIG_VAL CONFIG_VAL CONFIG_VAL b w
  = (Ok tt, set_puts (<["duration_cfg" := d]>) w).
Proof. reflexivity. Qed.

(** With both given, only [events] is written. *)
Lemma preconfig_events_duration w e d b :
  preconfig (Given e) (Given d) CONFIG_VAL CONFIG_VAL CONFIG_VAL CONFIG_VAL b w
  = (Ok tt, set_puts (<["events_cfg" := e]>) w).
Proof. reflexivity. Qed.

(** [self.<attr>.get()], and [self.config[key]], as values. *)
Definition signal_value (attr : string) (w : world) : result pyval :=
  fst (Daq.get cls attr w).
Definition config_value (key : string) (w : world) : result pyval :=
  fst (config_item key w).

(** *** [configure] *)

(** Once [state] has returned a name, [configure] is its guard and what
    follows it. *)
Lemma configure_after_state w c name w1 events duration record use_l3t controls begin_sleep :
  _control w = Some c →
  state w = (Ok name, w1) →
  configure events duration record use_l3t controls begin_sleep w
  = configure_in_state name events duration record use_l3t controls begin_sleep w1.
Proof.
  intros Hc Hstate. unfold configure. rewrite (check_connect_connected _ w c Hc).
  run_monad. by rewrite Hstate.
Qed.

(** The guard itself: a state-transition error in every state but
    [Connected] and [Configured]. *)
Lemma configure_in_state_guard name w events duration record use_l3t controls begin_sleep :
  name ≠ "Connected" → name ≠ "Configured" →
  configure_in_state name events duration record use_l3t controls begin_sleep w
  = (Raise (StateTransitionError ("Cannot configure from state " ++ name ++ "!")), w).
Proof.
  intros H1 H2. unfold configure_in_state, among. simpl.
  destruct (String.eqb_spec name "Connected"); [done|].
  destruct (String.eqb_spec name "Configured"); [done|].
  done.
Qed.

(** *** [begin] *)

Definition unexpected_record : exn :=
  TypeError "kickoff() got an unexpected keyword argument 'record'".

Lemma kickoff_record w c events duration record use_l3t controls :
  _control w = Some c →
  kickoff [("events", events); ("duration", duration); ("record", record);
           ("use_l3t", use_l3t); ("controls", controls)] w
  = (Raise unexpected_record, w).
Proof.
  intros Hc. unfold kickoff. by rewrite (check_connect_connected _ w c Hc).
Qed.

Lemma Daq_begin_record w c wait end_run events duration record use_l3t controls :
  _control w = Some c →
  Daq.begin cls self wait end_run
    [("events", events); ("duration", duration); ("record", record);
     ("use_l3t", use_l3t); ("controls", controls)] w
  = (Raise unexpected_record, w).
Proof.
  intros Hc. unfold Daq.begin. run_monad. simpl.
  by rewrite (kickoff_record w c _ _ _ _ _ Hc).
Qed.

(** The world [begin] leaves behind: the record signal written and written
    back when [record] was given and differs, nothing otherwise. *)
Definition after_begin (record : arg) (w : world) : world :=
  let current := default VNone (puts w !! "record_cfg") in
  match record with
  | Given r => if py_eq r current then w else record_put current (record_put r w)
  | CONFIG_VAL => w
  end.

Lemma begin_connected_raises w c events duration record use_l3t controls wait end_run :
  _control w = Some c →
  begin events duration record use_l3t controls wait end_run w
  = (Raise unexpected_record, after_begin record w).
Proof.
  intros Hc.
  assert (Hrec : DaqLCLS1.record w
                 = (Ok (default VNone (puts w !! "record_cfg")), w)) by done.
  unfold begin, after_begin. unfold mbind, M_bind, bind. rewrite Hrec.
  destruct record as [|r].
  - cbv beta iota. unfold try_finally, bind, when, ret.
    rewrite bool_decide_eq_false_2 by (by intros ?).
    by rewrite (Daq_begin_record w c _ _ _ _ _ _ _ Hc).
  - destruct (py_eq r (default VNone (puts w !! "record_cfg"))); cbv beta iota.
    + unfold negb, try_finally, bind, when, ret.
      rewrite bool_decide_eq_false_2 by (by intros ?).
      by rewrite (Daq_begin_record w c _ _ _ _ _ _ _ Hc).
    + unfold negb, try_finally, bind, when.
      rewrite bool_decide_eq_true_2 by done.
      rewrite preconfig_record.
      rewrite (Daq_begin_record (record_put r w) c) by done.
      by rewrite preconfig_record.
Qed.

(** C10: on a connected object every [begin] raises [TypeError], for the
    keyword [record] that [kickoff] does not take; it does so before any
    status exists or is waited for and before the peer is called; and
    [begin] with [end_run] is [begin] without it, whatever the object. *)
Theorem begin_raises_TypeError w c events duration record use_l3t controls wait end_run :
  _control w = Some c →
  begin events duration record use_l3t controls wait end_run w
  = (Raise unexpected_record, after_begin record w) ∧
  trace (after_begin record w) = trace w ∧
  statuses (after_begin record w) = statuses w ∧
  (∀ w', begin events duration record use_l3t controls wait end_run w'
         = begin events duration record use_l3t controls wait false w').
Proof.
  intros Hc. split; [|split; [|split]].
  - assert (Hrec : DaqLCLS1.record w
                   = (Ok (default VNone (puts w !! "record_cfg")), w)) by done.
    unfold begin, after_begin. unfold mbind, M_bind, bind. rewrite Hrec.
    destruct record as [|r].
    + cbv beta iota. unfold try_finally, bind, when, ret.
      rewrite bool_decide_eq_false_2 by (by intros ?).
      by rewrite (Daq_begin_record w c _ _ _ _ _ _ _ Hc).
    + destruct (py_eq r (default VNone (puts w !! "record_cfg"))); cbv beta iota.
      * unfold negb, try_finally, bind, when, ret.
        rewrite bool_decide_eq_false_2 by (by intros ?).
        by rewrite (Daq_begin_record w c _ _ _ _ _ _ _ Hc).
      * unfold negb, try_finally, bind, when.
        rewrite bool_decide_eq_true_2 by done.
        rewrite preconfig_record.
        rewrite (Daq_begin_record (record_put r w) c) by done.
        by rewrite preconfig_record.
  - unfold after_begin. destruct record as [|r]; [done|].
    by destruct (py_eq r _).
  - unfold after_begin. destruct record as [|r]; [done|].
    by destruct (py_eq r _).
  - done.
Qed.

End Backend.

(** *** Relations that every step of the object keeps

    [R w w'] relates a world to a later one.  When [R] is a preorder that
    the elementary steps respect (writing an attribute of the class other
    than [_last_stop], writing to a signal of the class other than
    [configured_sig], writing to a signal that was set on the object,
    stamping [_last_stop] with the current time, letting time pass,
    logging anything but a begin call, and logging a begin call when the
    throttle window has elapsed), every method respects it. *)
Section Stable.
Context `{Pydaq}.
Variable R : world → world → Prop.

Definition is_begin (a : action) : bool :=
  match a with Call (RpcBegin _) => true | _ => false end.

Definition stable {A} (c : M world A) : Prop := ∀ w, R w (snd (c w)).

Hypothesis R_refl : ∀ w, R w w.
Hypothesis R_trans : ∀ a b c, R a b → R b c → R a c.
Hypothesis R_puts : ∀ attr v w,
  attr ≠ "configured_sig" → R w (set_puts (<[attr := v]>) w).
Hypothesis R_queue : ∀ b w, R w (set_queue_configure_transition b w).
Hypothesis R_control : ∀ c w, R w (set_control c w).
Hypothesis R_begin : ∀ b w, R w (set_begin b w).
Hypothesis R_failed : ∀ b w, R w (set_check_run_number_has_failed b w).
Hypothesis R_extra : ∀ name o w,
  is_Some (extra_attrs w !! name) → R w (set_extra_attrs (<[name := o]>) w).
Hypothesis R_statuses : ∀ f w, R w (set_statuses f w).
Hypothesis R_interrupts : ∀ l w, R w (set_interrupts l w).
Hypothesis R_stamp : ∀ w, R w (set_last_stop (now w) w).
Hypothesis R_elapse : ∀ dt w, (0 <= dt)%Q → R w (set_now (now w + dt)%Q w).
Hypothesis R_log : ∀ a w,
  is_begin a = false → R w (set_trace (λ t, (t ++ [(now w, a)])%list) w).
Hypothesis R_log_begin : ∀ a w,
  (_last_stop w + BEGIN_THROTTLE <= now w)%Q →
  R w (set_trace (λ t, (t ++ [(now w, Call (RpcBegin a))])%list) w).

Lemma stable_ret {A} (a : A) : stable (ret a).
Proof. intros w. apply R_refl. Qed.
Lemma stable_mret {A} (a : A) : stable (mret a).
Proof. intros w. apply R_refl. Qed.
Lemma stable_raise {A} e : stable (raise (A := A) e).
Proof. intros w. apply R_refl. Qed.
Lemma stable_hang {A} : stable (hang (A := A)).
Proof. intros w. apply R_refl. Qed.
Lemma stable_gets {A} (f : world → A) : stable (gets f).
Proof. intros w. apply R_refl. Qed.
Lemma stable_lift_result {A} (r : result A) : stable (lift_result r).
Proof. intros w. apply R_refl. Qed.

Lemma stable_bind {A B} (c : M world A) (k : A → M world B) :
  stable c → (∀ a, stable (k a)) → stable (bind c k).
Proof.
  intros Hc Hk w. unfold bind. specialize (Hc w).
  destruct (c w) as [[a|e|] w']; simpl in *; [|done..].
  eapply R_trans; [done|apply Hk].
Qed.

Lemma stable_mbind {A B} (c : M world A) (k : A → M world B) :
  stable c → (∀ a, stable (k a)) → stable (c ≫= k).
Proof. apply stable_bind. Qed.

Lemma stable_try_except {A} (c : M world A) sel h :
  stable c → (∀ e, stable (h e)) → stable (try_except c sel h).
Proof.
  intros Hc Hh w. unfold try_except. specialize (Hc w).
  destruct (c w) as [[a|e|] w']; simpl in *; [done| |done].
  destruct (sel e); [|done]. eapply R_trans; [done|apply Hh].
Qed.

Lemma stable_try_finally {A} (c : M world A) f :
  stable c → stable f → stable (try_finally c f).
Proof.
  intros Hc Hf w. unfold try_finally. specialize (Hc w).
  destruct (c w) as [[a|e|] w']; simpl in *; [| |done];
    specialize (Hf w'); destruct (f w') as [[?|?|] w'']; simpl in *;
    by eapply R_trans.
Qed.

Lemma stable_when b (c : M world unit) : stable c → stable (when b c).
Proof. intros Hc. destruct b; [done|apply stable_ret]. Qed.

Lemma stable_thread_start (c : M world unit) : stable c → stable (thread_start c).
Proof. intros Hc w. apply Hc. Qed.

Create HintDb stable discriminated.

Lemma stable_modify (f : world → world) : (∀ w, R w (f w)) → stable (modify f).
Proof. intros Hf w. apply Hf. Qed.

Ltac stab :=
  repeat match goal with
    | |- stable (mbind _ _) => apply stable_mbind; [|intros ?]
    | |- stable (bind _ _) => apply stable_bind; [|intros ?]
    | |- stable (ret _) => apply stable_ret
    | |- stable (mret _) => apply stable_mret
    | |- stable (raise _) => apply stable_raise
    | |- stable hang => apply stable_hang
    | |- stable (gets _) => apply stable_gets
    | |- stable (lift_result _) => apply stable_lift_result
    | |- stable (try_except _ _ _) => apply stable_try_except; [|intros ?]
    | |- stable (try_finally _ _) => apply stable_try_finally
    | |- stable (when _ _) => apply stable_when
    | |- stable (thread_start _) => apply stable_thread_start
    | |- stable (modify _) => apply stable_modify; solve [auto]
    | |- stable (match ?x with _ => _ end) => destruct x
    | |- stable (let _ := _ in _) => cbv zeta
    | |- stable _ => solve [auto 2 with stable]
    end.

Lemma stable_log a : is_begin a = false → stable (log a).
Proof. intros Ha w. by apply R_log. Qed.

Lemma stable_elapse dt : (0 <= dt)%Q → stable (elapse dt).
Proof. intros Hdt w. by apply R_elapse. Qed.

Lemma Qltb_false a b : Qltb a b = false → (b <= a)%Q.
Proof.
  unfold Qltb. intros Hab%negb_false_iff. by apply Qle_bool_iff.
Qed.

Lemma Qltb_true a b : Qltb a b = true → (a < b)%Q.
Proof.
  unfold Qltb. intros Hab%negb_true_iff. apply Qnot_le_lt.
  intros Hle%Qle_bool_iff. congruence.
Qed.

Lemma stable_time_sleep s : stable (time_sleep s).
Proof.
  unfold time_sleep. destruct (Qltb s 0) eqn:Hs; [apply stable_raise|].
  apply Qltb_false in Hs. apply stable_mbind; [by apply stable_log|intros _].
  apply stable_elapse. pose proof oversleep_nonneg. lra.
Qed.

Lemma stable_call_peer {A} r (f : Control → result A * Control) c :
  is_begin (Call r) = false → stable (call_peer r f c).
Proof.
  intros Hr. unfold call_peer.
  apply stable_mbind; [by apply stable_log|intros _].
  apply stable_mbind; [apply stable_elapse, rpc_latency_nonneg|intros _].
  apply stable_ret.
Qed.

Lemma stable_call_control {A} r (f : Control → result A * Control) :
  is_begin (Call r) = false → stable (call_control r f).
Proof.
  intros Hr. unfold call_control. apply stable_mbind; [apply stable_gets|].
  intros [c|]; [|apply stable_raise].
  apply stable_mbind; [by apply stable_call_peer|intros out].
  apply stable_mbind; [by apply stable_modify|intros _].
  apply stable_lift_result.
Qed.

Lemma stable_Status_new : stable Status_new.
Proof.
  unfold Status_new. apply stable_mbind; [apply stable_gets|intros n].
  apply stable_mbind; [by apply stable_modify|intros _]. apply stable_ret.
Qed.

Lemma stable_status_complete h s : stable (status_complete h s).
Proof.
  unfold status_complete. apply stable_mbind; [apply stable_gets|intros l].
  destruct (l !! h) as [[| |]|]; try apply stable_raise.
  by apply stable_modify.
Qed.

Lemma stable_status_set_finished h : stable (status_set_finished h).
Proof. apply stable_status_complete. Qed.
Lemma stable_status_set_exception h e : stable (status_set_exception h e).
Proof. apply stable_status_complete. Qed.

Lemma stable_status_wait h timeout : stable (status_wait h timeout).
Proof.
  unfold status_wait.
  apply stable_mbind; [by apply stable_log|intros _].
  apply stable_mbind; [apply stable_gets|intros user].
  apply stable_mbind; [by apply stable_modify|intros _].
  destruct (default false (head user)); [apply stable_raise|].
  apply stable_mbind; [apply stable_gets|intros l].
  destruct (l !! h) as [[| |]|]; try apply stable_ret; try apply stable_raise;
    (destruct timeout as [t|]; [|apply stable_hang]);
    (apply stable_mbind; [|intros _; apply stable_raise]);
    apply stable_elapse; destruct (Qltb t 0) eqn:Ht; try done;
    by apply Qltb_false in Ht.
Qed.

Hint Resolve stable_call_control stable_Status_new stable_status_complete
  stable_status_set_finished stable_status_set_exception
  stable_status_wait stable_time_sleep stable_modify : stable.

(** Stamping [_last_stop] with the current time. *)
Lemma stable_stamp : stable (t ← time_time; modify (set_last_stop t)).
Proof. intros w. apply R_stamp. Qed.

Lemma stable_stamp_then {A} (k : M world A) :
  stable k → stable (t ← time_time; modify (set_last_stop t);; k).
Proof.
  intros Hk w. unfold time_time, mbind, M_bind, bind, gets, modify. simpl.
  eapply R_trans; [apply R_stamp|apply Hk].
Qed.

(** The throttle and the begin call of [start_thread], followed by [k]. *)
Lemma stable_throttled_begin {A} a (k : M world A) :
  stable k →
  stable (t ← time_time;
          last_stop ← gets _last_stop;
          let dt := (t - last_stop)%Q in
          let tmo := (BEGIN_THROTTLE - dt)%Q in
          when (Qltb 0 tmo) (time_sleep tmo);;
          call_control (RpcBegin a) (control_begin a);;
          k).
Proof.
  intros Hk w. unfold time_time, mbind, M_bind, bind, gets. simpl.
  set (tmo := (BEGIN_THROTTLE - (now w - _last_stop w))%Q).
  assert (Hslept : ∃ w1, (when (Qltb 0 tmo) (time_sleep tmo)) w = (Ok tt, w1) ∧
            R w w1 ∧ _last_stop w1 = _last_stop w ∧ _control w1 = _control w ∧
            (_last_stop w + BEGIN_THROTTLE <= now w1)%Q).
  { destruct (Qltb 0 tmo) eqn:Htmo; simpl.
    - apply Qltb_true in Htmo. unfold time_sleep.
      assert (Qltb tmo 0 = false) as ->.
      { unfold Qltb. apply negb_false_iff, Qle_bool_iff. lra. }
      set (w0 := set_trace (λ t, (t ++ [(now w, Sleep tmo)])%list) w).
      exists (set_now (now w0 + (tmo + oversleep))%Q w0).
      split; [reflexivity|]. split; [|split; [done|split; [done|]]].
      + eapply R_trans; [by apply (R_log (Sleep tmo))|].
        apply (R_elapse (tmo + oversleep)%Q w0). pose proof oversleep_nonneg. lra.
      + pose proof oversleep_nonneg. simpl. unfold tmo. lra.
    - apply Qltb_false in Htmo. exists w. split; [done|].
      split; [apply R_refl|]. split; [done|]. split; [done|]. unfold tmo in Htmo. lra. }
  destruct Hslept as (w1 & -> & HR & Hls & Hc & Hnow).
  eapply R_trans; [exact HR|].
  unfold call_control, call_peer, log, elapse, mbind, M_bind, bind, gets, modify,
    mret, M_ret, ret, lift_result, raise. simpl.
  destruct (_control w1) as [c|]; simpl; [|apply R_refl].
  set (w2 := set_trace _ w1).
  assert (HR2 : R w1 (set_control (Some (control_begin a c).2)
                        (set_now (now w2 + rpc_latency)%Q w2))).
  { eapply R_trans; [apply (R_log_begin a); by rewrite Hls|].
    eapply R_trans; [apply (R_elapse rpc_latency), rpc_latency_nonneg|].
    apply R_control. }
  destruct (control_begin a c) as [[[]|e|] c']; simpl in *; try done.
  eapply R_trans; [exact HR2|apply Hk].
Qed.

(** **** The methods of [Daq] *)

Lemma stable_getattr cls name : stable (Daq.getattr cls name).
Proof. unfold Daq.getattr. stab. Qed.
Lemma stable_signal_get a : stable (Daq.signal_get a).
Proof. unfold Daq.signal_get. stab. Qed.
Hint Resolve stable_getattr stable_signal_get : stable.

(** No configuration signal is called [configured_sig]. *)
Lemma cfg_not_configured_sig key : (key ++ "_cfg")%string ≠ "configured_sig".
Proof.
  intros Heq.
  repeat (destruct key as [|? key]; simpl in Heq; [discriminate Heq|];
          injection Heq as _ Heq).
  by destruct key.
Qed.

(** A signal is written where [getattr] found it. *)
Lemma stable_getattr_put {B} cls name (v : pyval) sel (f : exn → exn)
    (guard : Daq.attribute → bool) e (k : M world B) :
  name ≠ "configured_sig" →
  stable k →
  stable (a ← try_except (Daq.getattr cls name) sel (λ x, raise (f x));
          (if guard a then Daq.signal_put a v else raise e);;
          k).
Proof.
  intros Hname Hk w. unfold Daq.getattr, Daq.signal_put.
  unfold mbind, M_bind, bind, try_except, gets, ret, raise, modify.
  destruct (find _ (Daq.components cls)) as [c|] eqn:Hfind; simpl.
  - destruct (guard _); simpl; [|apply R_refl].
    apply find_some in Hfind as [_ Hc%String.eqb_eq].
    eapply R_trans; [|apply Hk]. apply R_puts. congruence.
  - destruct (extra_attrs w !! name) as [o|] eqn:Ho; simpl.
    + destruct (guard _); simpl; [|apply R_refl].
      destruct o; simpl; try apply R_refl.
      eapply R_trans; [by apply R_extra|apply Hk].
    + destruct (sel _); apply R_refl.
Qed.

Lemma stable_get cls attr : stable (Daq.get cls attr).
Proof. unfold Daq.get. stab. Qed.
Lemma stable_put cls attr v :
  attr ≠ "configured_sig" → stable (Daq.put cls attr v).
Proof.
  intros Hattr.
  pose proof (stable_getattr_put cls attr v (λ _, false) (λ e, e)
                (λ _, true) InvalidState (ret tt) Hattr (stable_ret tt)) as Hput.
  intros w. specialize (Hput w). revert Hput.
  unfold Daq.put, mbind, M_bind, bind, try_except, ret.
  destruct (Daq.getattr cls attr w) as [[a|e|] w']; simpl; try done.
  by destruct (Daq.signal_put a v w') as [[[]|?|] ?].
Qed.
Hint Resolve stable_get stable_put : stable.
Hint Extern 1 (_ ≠ _) => discriminate : stable.

Lemma stable_configured cls : stable (Daq.configured cls).
Proof. unfold Daq.configured. stab. Qed.
Lemma stable_read_configuration cls : stable (Daq.read_configuration cls).
Proof. unfold Daq.read_configuration. stab. Qed.
Hint Resolve stable_configured stable_read_configuration : stable.

Lemma stable_config cls : stable (Daq.config cls).
Proof. unfold Daq.config. stab. Qed.
Lemma stable_getitem d key : stable (Daq.getitem d key).
Proof. unfold Daq.getitem. stab. Qed.
Hint Resolve stable_config stable_getitem : stable.

Lemma stable_Daq_preconfig cls kw : stable (Daq.preconfig cls kw).
Proof.
  induction kw as [|[key [|value]] kw IH]; simpl; [apply stable_ret|done|].
  apply (stable_getattr_put cls (key ++ "_cfg") value is_AttributeError
           (λ _, ValueError ("Did not find config parameter " ++ key)));
    [apply cfg_not_configured_sig|].
  stab.
Qed.
Hint Resolve stable_Daq_preconfig : stable.

Lemma stable_Daq_configure cls self_preconfig kw :
  (∀ kw, stable (self_preconfig kw)) → stable (Daq.configure cls self_preconfig kw).
Proof. intros Hp. unfold Daq.configure. stab. Qed.

Lemma stable_as_timeout v : stable (Daq.as_timeout v).
Proof. unfold Daq.as_timeout. stab. Qed.
Lemma stable_sleep_value v : stable (Daq.sleep_value v).
Proof. unfold Daq.sleep_value. stab. Qed.
Hint Resolve stable_as_timeout stable_sleep_value : stable.

Lemma stable_Daq_begin cls self wait end_run kw :
  (∀ kw, stable (Daq.kickoff self kw)) →
  (∀ timeout e, stable (Daq.wait self timeout e)) →
  stable (Daq.stop self) → stable (Daq.end_run self) →
  stable (Daq.begin cls self wait end_run kw).
Proof. intros Hk Hw Hs He. unfold Daq.begin. stab. Qed.

(** **** The methods of [DaqLCLS1] *)

Lemma stable_connected : stable connected.
Proof. unfold connected. stab. Qed.
Hint Resolve stable_connected : stable.

Lemma stable_state : stable state.
Proof. unfold state. stab. Qed.
Hint Resolve stable_state : stable.

Lemma stable_connect_attempt plat : stable (connect_attempt plat).
Proof. unfold connect_attempt. stab. Qed.
Hint Resolve stable_connect_attempt : stable.

Lemma stable_connect_loop plats err : stable (connect_loop plats err).
Proof.
  revert err. induction plats as [|plat plats IH]; intros err; simpl; stab.
Qed.
Hint Resolve stable_connect_loop : stable.

Lemma stable_connect : stable connect.
Proof. unfold connect. stab. Qed.
Hint Resolve stable_connect : stable.

Lemma stable_check_connect {A} (f : M world A) : stable f → stable (check_connect f).
Proof. intros Hf. unfold check_connect. stab. Qed.

Lemma stable_reset_begin : stable _reset_begin.
Proof. unfold _reset_begin. stab. Qed.
Hint Resolve stable_reset_begin : stable.

Lemma stable_stop : stable stop.
Proof.
  unfold stop. apply stable_check_connect.
  apply stable_mbind; [stab|intros _].
  apply stable_mbind; [stab|intros _].
  apply stable_stamp.
Qed.
Hint Resolve stable_stop : stable.

Lemma stable_end_run : stable end_run.
Proof. unfold end_run. apply stable_check_connect. stab. Qed.
Hint Resolve stable_end_run : stable.

Lemma stable_preconfig events duration record use_l3t controls begin_sleep b :
  stable (preconfig events duration record use_l3t controls begin_sleep b).
Proof. unfold preconfig. stab. Qed.
Hint Resolve stable_preconfig : stable.

Lemma stable_preconfig_kw b kw : stable (preconfig_kw b kw).
Proof. unfold preconfig_kw. stab. Qed.
Hint Resolve stable_preconfig_kw : stable.

Lemma stable_configure_in_state name events duration record use_l3t controls begin_sleep :
  stable (configure_in_state name events duration record use_l3t controls begin_sleep).
Proof.
  unfold configure_in_state.
  destruct (negb _); [apply stable_raise|].
  apply stable_mbind; [stab|intros _].
  apply stable_mbind; [apply stable_Daq_configure; intros; stab|intros ?].
  stab.
Qed.
Hint Resolve stable_configure_in_state : stable.

Lemma stable_configure events duration record use_l3t controls begin_sleep :
  stable (configure events duration record use_l3t controls begin_sleep).
Proof. unfold configure. apply stable_check_connect. stab. Qed.
Hint Resolve stable_configure : stable.

Lemma stable_config_item key : stable (config_item key).
Proof. unfold config_item. stab. Qed.
Lemma stable_secs_nsec d : stable (secs_nsec d).
Proof. unfold secs_nsec. stab. Qed.
Hint Resolve stable_config_item stable_secs_nsec : stable.

Lemma stable_begin_args events duration use_l3t controls :
  stable (_begin_args events duration use_l3t controls).
Proof. unfold _begin_args. stab. Qed.
Hint Resolve stable_begin_args : stable.

Lemma stable_events : stable _events.
Proof. unfold _events. stab. Qed.
Lemma stable_duration : stable _duration.
Proof. unfold _duration. stab. Qed.
Hint Resolve stable_events stable_duration : stable.

Lemma stable_infinite_run : stable _infinite_run.
Proof. unfold _infinite_run. stab. Qed.
Hint Resolve stable_infinite_run : stable.

Lemma stable_finish_thread status : stable (finish_thread status).
Proof.
  unfold finish_thread. apply stable_mbind; [stab|intros _].
  apply stable_stamp_then. stab.
Qed.
Hint Resolve stable_finish_thread : stable.

Lemma stable_get_end_status : stable _get_end_status.
Proof. unfold _get_end_status. stab. Qed.
Hint Resolve stable_get_end_status : stable.

Lemma stable_wait timeout e : stable (wait timeout e).
Proof. unfold wait. apply stable_check_connect. stab. Qed.
Hint Resolve stable_wait : stable.

Lemma stable_run_number hutch : stable (run_number hutch).
Proof. unfold run_number. stab. Qed.
Hint Resolve stable_run_number : stable.

Lemma stable_poll_ready fuel tmo : stable (poll_ready fuel tmo).
Proof.
  revert tmo. induction fuel as [|fuel IH]; intros tmo; simpl; stab.
Qed.
Hint Resolve stable_poll_ready : stable.

(** The worker of [kickoff]: everything but the begin call by the rules
    above, the begin call by the throttle before it. *)
Lemma stable_start_thread status events duration use_l3t controls run_number :
  stable (start_thread status events duration use_l3t controls run_number).
Proof.
  unfold start_thread. cbv zeta.
  apply stable_mbind; [stab|intros s].
  apply stable_mbind; [stab|intros _].
  apply stable_mbind; [stab|intros _].
  apply stable_mbind; [stab|intros s'].
  destruct (among _ s'); [|stab].
  apply stable_mbind; [stab|intros a].
  apply (stable_throttled_begin a). stab.
Qed.
Hint Resolve stable_start_thread : stable.

Lemma stable_kickoff_body events duration use_l3t controls :
  stable (kickoff_body events duration use_l3t controls).
Proof. unfold kickoff_body. stab. Qed.
Hint Resolve stable_kickoff_body : stable.

Lemma stable_kickoff kw : stable (kickoff kw).
Proof. unfold kickoff. apply stable_check_connect. stab. Qed.
Hint Resolve stable_kickoff : stable.

Lemma stable_begin events duration record use_l3t controls wait end_run :
  stable (begin events duration record use_l3t controls wait end_run).
Proof.
  unfold begin, DaqLCLS1.record.
  apply stable_mbind; [stab|intros current]. cbv zeta.
  apply stable_try_finally; [|stab].
  apply stable_mbind; [stab|intros _].
  apply stable_Daq_begin; simpl; auto with stable.
Qed.

End Stable.

(** *** Objects built and used through the class *)

(** A call of one of the methods above, with its arguments. *)
Inductive method_call :=
| call_connect
| call_stop
| call_end_run
| call_wait (timeout : option Q) (end_run : bool)
| call_preconfig (events duration record use_l3t controls begin_sleep : arg)
    (show_queued_cfg : bool)
| call_configure (events duration record use_l3t controls begin_sleep : arg)
| call_kickoff (kw : kwargs)
| call_begin (events duration record use_l3t controls : arg) (wait end_run : bool)
| call_begin_infinite (record use_l3t controls : arg)
| call_pause
| call_resume.

Definition perform `{Pydaq} (m : method_call) (w : world) : world :=
  match m with
  | call_connect => snd (connect w)
  | call_stop => snd (stop w)
  | call_end_run => snd (end_run w)
  | call_wait timeout e => snd (wait timeout e w)
  | call_preconfig events duration record use_l3t controls begin_sleep b =>
      snd (preconfig events duration record use_l3t controls begin_sleep b w)
  | call_configure events duration record use_l3t controls begin_sleep =>
      snd (configure events duration record use_l3t controls begin_sleep w)
  | call_kickoff kw => snd (kickoff kw w)
  | call_begin events duration record use_l3t controls wait e =>
      snd (begin events duration record use_l3t controls wait e w)
  | call_begin_infinite record use_l3t controls =>
      snd (begin_infinite record use_l3t controls w)
  | call_pause => snd (pause w)
  | call_resume => snd (resume w)
  end.

(** One step in the life of the object: a method is called and runs to
    its end, time passes, or the user decides anew when to interrupt. *)
Inductive step `{Pydaq} : world → world → Prop :=
| step_call m w : step w (perform m w)
| step_time dt w : (0 <= dt)%Q → step w (set_now (now w + dt)%Q w)
| step_user l w : step w (set_interrupts l w).

(** The worlds of an object that [__init__] built and that went through
    such steps only. *)
Definition reachable `{Pydaq} (w : world) : Prop :=
  ∃ hutch_name t0 user, rtc step (__init__ hutch_name t0 user) w.

Section Reachable.
Context `{Pydaq}.

(** No step gives the object an attribute it did not have. *)
Definition no_new_attribute (name : string) (w w' : world) : Prop :=
  extra_attrs w !! name = None → extra_attrs w' !! name = None.

Lemma no_new_attribute_same name w w' :
  extra_attrs w' = extra_attrs w → no_new_attribute name w w'.
Proof. intros Heq. unfold no_new_attribute. by rewrite Heq. Qed.

Lemma no_new_attribute_trans name a b c :
  no_new_attribute name a b → no_new_attribute name b c → no_new_attribute name a c.
Proof. unfold no_new_attribute. auto. Qed.

Lemma no_new_attribute_put name n o w :
  is_Some (extra_attrs w !! n) →
  no_new_attribute name w (set_extra_attrs (<[n := o]>) w).
Proof.
  intros [o' Ho'] Hnone. simpl. rewrite lookup_insert_ne; [done|].
  intros ->. congruence.
Qed.

Ltac attribute_rules :=
  first [ apply no_new_attribute_trans | apply no_new_attribute_put
        | intros; by apply no_new_attribute_same ].

(** Every method respects a relation that the elementary steps respect. *)
Lemma perform_stable (R : world → world → Prop) m w :
  (∀ w, R w w) → (∀ a b c, R a b → R b c → R a c) →
  (∀ attr v w, attr ≠ "configured_sig" → R w (set_puts (<[attr := v]>) w)) →
  (∀ b w, R w (set_queue_configure_transition b w)) →
  (∀ c w, R w (set_control c w)) →
  (∀ b w, R w (set_begin b w)) →
  (∀ b w, R w (set_check_run_number_has_failed b w)) →
  (∀ name o w, is_Some (extra_attrs w !! name) →
               R w (set_extra_attrs (<[name := o]>) w)) →
  (∀ f w, R w (set_statuses f w)) →
  (∀ l w, R w (set_interrupts l w)) →
  (∀ w, R w (set_last_stop (now w) w)) →
  (∀ dt w, (0 <= dt)%Q → R w (set_now (now w + dt)%Q w)) →
  (∀ a w, is_begin a = false →
          R w (set_trace (λ t, (t ++ [(now w, a)])%list) w)) →
  (∀ a w, (_last_stop w + BEGIN_THROTTLE <= now w)%Q →
          R w (set_trace (λ t, (t ++ [(now w, Call (RpcBegin a))])%list) w)) →
  R w (perform m w).
Proof.
  intros. destruct m; simpl.
  - by apply stable_connect.
  - by apply stable_stop.
  - by apply stable_end_run.
  - by apply stable_wait.
  - by apply stable_preconfig.
  - by apply stable_configure.
  - by apply stable_kickoff.
  - by apply stable_begin.
  - unfold begin_infinite. by apply stable_begin.
  - unfold pause, Daq.pause. apply stable_mbind; [done..| |].
    + by apply stable_state.
    + intros s. apply stable_when; [done|]. by apply stable_stop.
  - unfold resume, Daq.resume. apply stable_mbind; [done..| |].
    + by apply stable_state.
    + intros s. apply stable_when; [done|]. by apply stable_begin.
Qed.

Lemma step_no_new_attribute name w w' :
  step w w' → no_new_attribute name w w'.
Proof.
  destruct 1 as [m w| |]; [|by apply no_new_attribute_same..].
  apply perform_stable; attribute_rules.
Qed.

Lemma steps_no_new_attribute name w w' :
  rtc step w w' → no_new_attribute name w w'.
Proof.
  induction 1 as [|w1 w2 w3 Hstep _ IH]; [by apply no_new_attribute_same|].
  eapply no_new_attribute_trans; [by apply step_no_new_attribute|done].
Qed.

(** An object built and used through the class has no attribute
    [_state_enum], and none called [configred_sig]. *)
Lemma reachable_no_attribute w name :
  reachable w → extra_attrs w !! name = None.
Proof.
  intros (hutch_name & t0 & user & Hsteps).
  by apply (steps_no_new_attribute name _ _ Hsteps).
Qed.

End Reachable.

(** *** What an object built through the class shows *)
Section Receivable.
Context `{Pydaq}.

(** No step writes to [configured_sig]: the only [put(True)] of the
    class goes to the attribute [configred_sig], which does not exist. *)
Definition never_configured (w w' : world) : Prop :=
  puts w !! "configured_sig" = None → puts w' !! "configured_sig" = None.

Lemma never_configured_same w w' : puts w' = puts w → never_configured w w'.
Proof. intros Heq. unfold never_configured. by rewrite Heq. Qed.

Lemma never_configured_trans a b c :
  never_configured a b → never_configured b c → never_configured a c.
Proof. unfold never_configured. auto. Qed.

Lemma never_configured_put attr v w :
  attr ≠ "configured_sig" →
  never_configured w (set_puts (<[attr := v]>) w).
Proof. intros Hattr Hnone. simpl. by rewrite lookup_insert_ne. Qed.

Ltac configured_rules :=
  first [ apply never_configured_trans | apply never_configured_put
        | intros; by apply never_configured_same ].

Lemma step_never_configured w w' : step w w' → never_configured w w'.
Proof.
  destruct 1 as [m w| |]; [|by apply never_configured_same..].
  apply perform_stable; configured_rules.
Qed.

Lemma steps_never_configured w w' : rtc step w w' → never_configured w w'.
Proof.
  induction 1 as [|w1 w2 w3 Hstep _ IH]; [by apply never_configured_same|].
  eapply never_configured_trans; [by apply step_never_configured|done].
Qed.

(** On an object built and used through the class, [configured_sig] has
    never been written: it holds the [False] of its component. *)
Lemma reachable_never_configured w :
  reachable w → puts w !! "configured_sig" = None.
Proof.
  intros (hutch_name & t0 & user & Hsteps).
  by apply (steps_never_configured _ _ Hsteps).
Qed.

Lemma never_configured_signal w :
  puts w !! "configured_sig" = None →
  signal_value "configured_sig" w = Ok (VBool false).
Proof.
  intros Hnone. unfold signal_value, Daq.get, Daq.getattr, Daq.signal_get.
  run_monad. simpl. by rewrite Hnone.
Qed.

(** [config] is then the defaults of the class, whatever was written to
    the configuration signals. *)
Lemma never_configured_config w key :
  puts w !! "configured_sig" = None →
  config_value key w = fst (Daq.getitem (Daq.default_config cls) key w).
Proof.
  intros Hnone.
  unfold config_value, config_item, Daq.config, Daq.configured, Daq.get,
    Daq.getattr, Daq.signal_get.
  run_monad. simpl. rewrite Hnone. simpl.
  by destruct (Daq.getitem _ key w).
Qed.

Lemma reachable_step m w : reachable w → reachable (perform m w).
Proof.
  intros (hutch_name & t0 & user & Hsteps). exists hutch_name, t0, user.
  eapply rtc_r; [done|]. apply step_call.
Qed.


(** **** [connect] touches neither the configuration nor the flags *)

(** From a world to a later one with the same signals, flags and
    attributes, in which the peer was asked nothing but to connect. *)
Definition only_connecting (w w' : world) : Prop :=
  puts w' = puts w ∧
  _queue_configure_transition w' = _queue_configure_transition w ∧
  extra_attrs w' = extra_attrs w ∧
  ∃ new, trace w' = (trace w ++ new)%list ∧
         Forall (λ ta, snd ta = Call RpcConnect) new.

Lemma only_connecting_refl w : only_connecting w w.
Proof. repeat split. exists []. by rewrite app_nil_r. Qed.

Lemma only_connecting_trans a b c :
  only_connecting a b → only_connecting b c → only_connecting a c.
Proof.
  intros (Hp1 & Hq1 & He1 & new1 & Ht1 & Hf1) (Hp2 & Hq2 & He2 & new2 & Ht2 & Hf2).
  split; [congruence|]. split; [congruence|]. split; [congruence|].
  exists (new1 ++ new2)%list. split; [by rewrite Ht2, Ht1, app_assoc|].
  by apply Forall_app.
Qed.

Lemma connect_attempt_only_connecting plat w :
  only_connecting w (snd (connect_attempt plat w)).
Proof.
  unfold connect_attempt, call_control, call_peer, log, elapse. run_monad.
  destruct (Control_new hostname plat) as [c| |]; simpl;
    try apply only_connecting_refl.
  destruct (control_connect c) as [[[]|e|] c']; simpl;
    (repeat split; try done; exists [(now w, Call RpcConnect)];
     split; [done|]; by repeat constructor).
Qed.

Lemma connect_loop_only_connecting plats err w :
  only_connecting w (snd (connect_loop plats err w)).
Proof.
  revert err w. induction plats as [|plat plats IH]; intros err w; simpl.
  - apply only_connecting_refl.
  - run_monad.
    pose proof (connect_attempt_only_connecting plat w) as Hone.
    destruct (connect_attempt plat w) as [[[]|e|] w1]; simpl in *; try done.
    destruct (is_Exception e); simpl; [|done].
    eapply only_connecting_trans; [done|apply IH].
Qed.

Lemma connect_only_connecting w : only_connecting w (snd (connect w)).
Proof.
  unfold connect, connected. run_monad. cbv beta.
  destruct (_control w); cbv beta iota; [apply only_connecting_refl|].
  pose proof (connect_loop_only_connecting [0; 1; 2; 3; 4; 5] false w) as Hloop.
  destruct (connect_loop [0; 1; 2; 3; 4; 5] false w) as [[r|e|] w1];
    cbv beta iota; try exact Hloop.
  destruct (fst r || negb (fst r || snd r)); [|exact Hloop].
  eapply only_connecting_trans; [exact Hloop|].
  repeat split. exists []. by rewrite app_nil_r.
Qed.



End Receivable.

(** *** The throttle *)
Section Throttle.
Context `{Pydaq}.

(** [ts] is a time stamp that [_last_stop] has reached. *)
Variable ts : Q.

(** From a world in which [_last_stop] is at least [ts] and not in the
    future, to a later one in which the same holds and every begin call
    made in between started [BEGIN_THROTTLE] or more after [ts]. *)
Definition paced (w w' : world) : Prop :=
  (ts <= _last_stop w)%Q → (_last_stop w <= now w)%Q →
  (ts <= _last_stop w')%Q ∧ (_last_stop w' <= now w')%Q ∧
  ∃ new, trace w' = (trace w ++ new)%list ∧
    Forall (λ ta, is_begin (snd ta) = true → (ts + BEGIN_THROTTLE <= fst ta)%Q) new.

Lemma paced_same w w' :
  _last_stop w' = _last_stop w → now w' = now w → trace w' = trace w →
  paced w w'.
Proof.
  intros Hls Hnow Htr H1 H2. rewrite Hls, Hnow, Htr.
  split; [done|]. split; [done|]. exists []. by rewrite app_nil_r.
Qed.

Lemma paced_refl w : paced w w.
Proof. by apply paced_same. Qed.

Lemma paced_trans a b c : paced a b → paced b c → paced a c.
Proof.
  intros Hab Hbc H1 H2.
  destruct (Hab H1 H2) as (H3 & H4 & new1 & Ht1 & Hf1).
  destruct (Hbc H3 H4) as (H5 & H6 & new2 & Ht2 & Hf2).
  split; [done|]. split; [done|]. exists (new1 ++ new2)%list.
  split; [by rewrite Ht2, Ht1, app_assoc|]. by apply Forall_app.
Qed.

Lemma paced_stamp w : paced w (set_last_stop (now w) w).
Proof.
  intros H1 H2. simpl. split; [lra|]. split; [lra|].
  exists []. by rewrite app_nil_r.
Qed.

Lemma paced_elapse dt w : (0 <= dt)%Q → paced w (set_now (now w + dt)%Q w).
Proof.
  intros Hdt H1 H2. simpl. split; [done|]. split; [lra|].
  exists []. by rewrite app_nil_r.
Qed.

Lemma paced_log a w :
  is_begin a = false → paced w (set_trace (λ t, (t ++ [(now w, a)])%list) w).
Proof.
  intros Ha H1 H2. simpl. split; [done|]. split; [done|].
  exists [(now w, a)]. split; [done|].
  constructor; [|constructor]. simpl. congruence.
Qed.

Lemma paced_log_begin a w :
  (_last_stop w + BEGIN_THROTTLE <= now w)%Q →
  paced w (set_trace (λ t, (t ++ [(now w, Call (RpcBegin a))])%list) w).
Proof.
  intros Hthr H1 H2. simpl. split; [done|]. split; [done|].
  exists [(now w, Call (RpcBegin a))]. split; [done|].
  constructor; [|constructor]. simpl. intros _. lra.
Qed.

Ltac paced_rules :=
  first [ apply paced_refl | apply paced_trans | apply paced_stamp
        | apply paced_elapse | apply paced_log | apply paced_log_begin
        | intros; by apply paced_same ].

Lemma paced_start_thread status events duration use_l3t controls run_number :
  stable paced (start_thread status events duration use_l3t controls run_number).
Proof. apply stable_start_thread; paced_rules. Qed.

Lemma step_paced w w' : step w w' → paced w w'.
Proof.
  destruct 1 as [m w|dt w Hdt|l w].
  - apply perform_stable; paced_rules.
  - by apply paced_elapse.
  - by apply paced_same.
Qed.

Lemma steps_paced w w' : rtc step w w' → paced w w'.
Proof.
  induction 1 as [|w1 w2 w3 Hstep _ IH]; [apply paced_refl|].
  eapply paced_trans; [by apply step_paced|done].
Qed.

End Throttle.

Section Throttled.
Context `{Pydaq}.

(** A [stop] that returns has recorded the time at which it does. *)
Lemma stop_records_now w0 w1 :
  stop w0 = (Ok tt, w1) → _last_stop w1 = now w1.
Proof.
  intros (w' & Hbody)%check_connect_Ok. revert Hbody.
  unfold _reset_begin, time_time. run_monad.
  destruct (call_control RpcStop control_stop w') as [[[]|e|] w'']; simpl;
    try done.
  by intros [= <-].
Qed.


End Throttled.

(** *** The loop of the worker ends *)
Section Poll.
Context `{Pydaq}.

Lemma state_returns w : fst (state w) ≠ Hang.
Proof.
  unfold state, connected, call_control, call_peer, log, elapse, Daq.getattr,
    HelpfulIntEnum.call.
  run_monad. simpl.
  repeat (case_match; simplify_eq/=; try done).
Qed.

Lemma poll_ready_returns fuel tmo w :
  (tmo * 10 <= inject_Z (Z.of_nat fuel))%Q →
  fst (poll_ready fuel tmo w) ≠ Hang.
Proof.
  revert tmo w. induction fuel as [|fuel IH]; intros tmo w Hfuel; simpl.
  - destruct (Qltb 0 tmo) eqn:Htmo; [|done].
    apply Qltb_true in Htmo. unfold inject_Z in Hfuel.
    change (Z.of_nat 0) with 0%Z in Hfuel. exfalso. lra.
  - destruct (Qltb 0 tmo) eqn:Htmo; [|done].
    run_monad. pose proof (state_returns w) as Hst.
    destruct (state w) as [[s|e|] w']; simpl in *; try done.
    destruct (_ || _); simpl; [done|]. apply IH.
    rewrite Nat2Z.inj_succ, <- Z.add_1_r, inject_Z_plus in Hfuel.
    change (inject_Z 1) with 1%Q in Hfuel. lra.
Qed.

(** With the bound [start_thread] gives it, the loop never runs out. *)
Lemma poll_ready_fuel tmo w :
  fst (poll_ready (Z.to_nat (Qceiling (tmo * 10)%Q)) tmo w) ≠ Hang.
Proof.
  apply poll_ready_returns.
  pose proof (Qle_ceiling (tmo * 10)%Q) as Hceil.
  eapply Qle_trans; [exact Hceil|].
  rewrite <- Zle_Qle. lia.
Qed.

End Poll.

(** *** On the simulated peer *)

(** [configure()], as [kickoff] calls it. *)
Definition configure_defaults `{Pydaq} :
    M world (list (string * pyval) * list (string * pyval)) :=
  configure CONFIG_VAL CONFIG_VAL CONFIG_VAL CONFIG_VAL CONFIG_VAL CONFIG_VAL.

(** The calls made to the peer, in order. *)
Definition calls `{Pydaq} (w : world) : list rpc :=
  omap (λ ta, match snd ta with Call r => Some r | _ => None end) (trace w).

Definition sim_config_args : config_args := ConfigArgs None None (Some 0) None.

Lemma state_raises_AttributeError_witness :
  @_control Sim.pydaq (Sim.connected_in 3) = Some 3 ∧
  @extra_attrs Sim.pydaq (Sim.connected_in 3) !! "_state_enum" = None ∧
  @state Sim.pydaq (Sim.connected_in 3)
  = (Raise (AttributeError "_state_enum"), @queried Sim.pydaq (Sim.connected_in 3) 3).
Proof.
  split; [reflexivity|]. split; [reflexivity|].
  apply (@state_raises_AttributeError Sim.pydaq (Sim.connected_in 3) 3);
    reflexivity.
Defined.

Lemma begin_raises_TypeError_witness :
  @_control Sim.pydaq (Sim.connected_in 2) = Some 2 ∧
  @begin Sim.pydaq (Given (VInt 100)) CONFIG_VAL (Given (VBool false))
    CONFIG_VAL CONFIG_VAL true true (Sim.connected_in 2)
  = (Raise unexpected_record,
     @after_begin Sim.pydaq (Given (VBool false)) (Sim.connected_in 2)).
Proof.
  split; [reflexivity|].
  apply (@begin_raises_TypeError Sim.pydaq (Sim.connected_in 2) 2).
  reflexivity.
Defined.

(** C2, as the code has it: on an object built by the class and connected
    to a peer, [configure] raises [AttributeError] whatever the state of
    the peer, [Open] (3) and [Running] (4) as well as [Connected] (1) and
    [Configured] (2), and the peer is asked for nothing but its state.
    With the attribute the property reads set on the object, the guard
    does what it is written for. *)
Theorem configure_guard_not_reached :
  (∀ s, s ∈ [1; 2; 3; 4] →
     fst (@configure_defaults Sim.pydaq (Sim.connected_in s))
     = Raise (AttributeError "_state_enum") ∧
     calls (snd (@configure_defaults Sim.pydaq (Sim.connected_in s))) = [RpcState]) ∧
  fst (@configure_defaults Sim.pydaq (Sim.patched_in 3))
  = Raise (StateTransitionError "Cannot configure from state Open!") ∧
  fst (@configure_defaults Sim.pydaq (Sim.patched_in 4))
  = Raise (StateTransitionError "Cannot configure from state Running!") ∧
  calls (snd (@configure_defaults Sim.pydaq (Sim.patched_in 1)))
  = [RpcState; RpcConfigure sim_config_args] ∧
  calls (snd (@configure_defaults Sim.pydaq (Sim.patched_in 2)))
  = [RpcState; RpcConfigure sim_config_args].
Proof.
  split; [|by vm_compute].
  intros s Hs. repeat (apply elem_of_cons in Hs as [->|Hs]; [by vm_compute|]).
  by apply elem_of_nil in Hs.
Qed.

(** A new object is one built by the class. *)
Lemma fresh_reachable : @reachable Sim.pydaq Sim.fresh.
Proof. exists None, 0%Q, []. apply rtc_refl. Qed.

(** The two calls of the example: [preconfig(events=10)], then
    [preconfig(duration=5)]. *)
Definition events_10_then_duration_5 : @world Sim.pydaq :=
  snd (preconfig CONFIG_VAL (Given (VInt 5)) CONFIG_VAL CONFIG_VAL CONFIG_VAL
         CONFIG_VAL true
         (snd (preconfig (Given (VInt 10)) CONFIG_VAL CONFIG_VAL CONFIG_VAL
                 CONFIG_VAL CONFIG_VAL true Sim.fresh))).

Example config_after_events_then_duration :
  config_value "events" events_10_then_duration_5 = Ok VNone ∧
  config_value "duration" events_10_then_duration_5 = Ok VNone ∧
  signal_value "events_cfg" events_10_then_duration_5 = Ok (VInt 10) ∧
  signal_value "duration_cfg" events_10_then_duration_5 = Ok (VInt 5) ∧
  signal_value "configured_sig" events_10_then_duration_5 = Ok (VBool false).
Proof. by vm_compute. Qed.


(** [configure()] on a new object: it connects, asks for the state and
    raises; the peer, which would accept, is not asked to configure. *)
Example configure_on_a_new_object :
  let r := @configure_defaults Sim.pydaq Sim.fresh in
  fst r = Raise (AttributeError "_state_enum") ∧
  calls (snd r) = [RpcConnect; RpcState] ∧
  _queue_configure_transition (snd r) = true ∧
  signal_value "configured_sig" (snd r) = Ok (VBool false).
Proof. by vm_compute. Qed.


(** A new object, a blocking [begin] that is to end the run, and a user
    who presses ctrl+c while it connects. *)
Definition begin_to_interrupt : @world Sim.interrupted_while_connecting :=
  @DaqLCLS1.__init__ Sim.interrupted_while_connecting None 0%Q [].

Definition interrupted_kickoff
  : result nat * @world Sim.interrupted_while_connecting :=
  kickoff [("events", Given (VInt 10)); ("duration", CONFIG_VAL);
           ("record", CONFIG_VAL); ("use_l3t", CONFIG_VAL);
           ("controls", CONFIG_VAL)] begin_to_interrupt.

(** [begin] returns normally; the peer was asked to stop, and not to end
    the run. *)
Example begin_interrupted_while_connecting :
  let r := @begin Sim.interrupted_while_connecting (Given (VInt 10)) CONFIG_VAL
             CONFIG_VAL CONFIG_VAL CONFIG_VAL true true begin_to_interrupt in
  fst interrupted_kickoff = Raise KeyboardInterrupt ∧
  fst r = Ok tt ∧
  calls (snd r) = [RpcConnect; RpcStop].
Proof. by vm_compute. Qed.


(** The simulated peer is running, and the two attributes that the
    methods read without the class defining them are set on the object;
    [stop] returns. *)
Definition stopped : @world Sim.pydaq := snd (@stop Sim.pydaq (Sim.repaired_in 4)).

(** Half a second later the run is ended, and [kickoff] is called. *)
Definition kicked_off : @world Sim.pydaq :=
  perform (call_kickoff [("events", Given (VInt 10))])
    (perform call_end_run (set_now (now stopped + (1 # 2))%Q stopped)).

(** It does call begin, and not before the throttle has passed. *)
Example kickoff_begins_after_throttle :
  existsb (λ ta, is_begin (snd ta)) (drop (length (trace stopped)) (trace kicked_off))
  = true ∧
  forallb (λ ta, negb (is_begin (snd ta))
                 || Qle_bool (_last_stop stopped + 1) (fst ta))
    (drop (length (trace stopped)) (trace kicked_off)) = true.
Proof. by vm_compute. Qed.


End DaqLCLS1Facts.
(** * Further properties *)

(** ** The look-up of the enumeration helpers *)
Module HelpfulIntEnumLaws.
Import HelpfulIntEnum HelpfulIntEnumFacts.

(** The body of [from_any], entered with the class for [self]. *)
Lemma from_any_member e i m : from_any (Class e) i = Ok m → m ∈ all_members e.
Proof.
  unfold from_any, all_members. rewrite elem_of_list_to_set, list_elem_of_fmap.
  destruct i as [s|z]; simpl.
  - destruct (find _ (members e)) as [m0|] eqn:Hfind; simpl.
    + intros [= <-]. exists m0. split; [done|].
      apply find_some in Hfind as [Hin _]. by apply list_elem_of_In.
    + discriminate.
  - destruct (existsb _ (members e)) eqn:Hex; [|discriminate].
    intros [= <-]. apply existsb_exists in Hex as (m0 & Hin & Heq).
    exists m0. split; [symmetry; by apply Z.eqb_eq | by apply list_elem_of_In].
Qed.

Lemma from_any_Ordinal e z :
  from_any (Class e) (Ordinal z) = Ok z ↔ z ∈ all_members e.
Proof.
  split; [apply from_any_member|].
  unfold from_any, all_members; simpl.
  rewrite elem_of_list_to_set, list_elem_of_fmap.
  intros (m & -> & Hm%list_elem_of_In).
  destruct (existsb _ (members e)) eqn:Hex; [done|].
  rewrite <- not_true_iff_false in Hex. exfalso. apply Hex.
  apply existsb_exists. exists m. split; [done|]. apply Z.eqb_refl.
Qed.

Lemma from_any_returns e i : from_any (Class e) i ≠ Hang.
Proof.
  unfold from_any. destruct i as [s|z]; simpl.
  - by destruct (find _ (members e)).
  - by destruct (existsb _ (members e)).
Qed.

Lemma from_any_ValueError e i x :
  from_any (Class e) i = Raise x → ∃ msg, x = ValueError msg.
Proof.
  unfold from_any. destruct i as [s|z]; simpl.
  - destruct (find _ (members e)); simpl; [done|]. intros [= <-]. eauto.
  - destruct (existsb _ (members e)); [done|]. intros [= <-]. eauto.
Qed.

Lemma from_any_Name e s v :
  from_any (Class e) (Name s) = Ok v → (s, v) ∈ members e.
Proof.
  unfold from_any; simpl.
  destruct (find _ (members e)) as [[s' v']|] eqn:Hfind; simpl; [|done].
  intros [= <-]. apply find_some in Hfind as [Hin Heq].
  simpl in Heq. apply String.eqb_eq in Heq as ->. by apply list_elem_of_In.
Qed.

Lemma from_any_Name_unknown e s x :
  from_any (Class e) (Name s) = Raise x → s ∉ (members e).*1.
Proof.
  unfold from_any; simpl.
  destruct (find _ (members e)) as [m|] eqn:Hfind; simpl; [done|].
  intros _ ([s' v'] & -> & Hin%list_elem_of_In)%list_elem_of_fmap.
  apply (find_none _ _ Hfind) in Hin. simpl in Hin.
  by rewrite String.eqb_refl in Hin.
Qed.

Lemma from_any_Ordinal_Ok e z v :
  from_any (Class e) (Ordinal z) = Ok v → v = z.
Proof.
  unfold from_any; simpl. destruct (existsb _ _); [|done]. by intros [= <-].
Qed.

(** X1: [from_any] is a plain function of the class body.  Called on
    the enumeration class, as every caller in the module calls it, it
    raises [TypeError] whatever the identifier, the identifier being
    taken for [self]; called on a member it raises [TypeError] too, at
    [self[identifier]].  Its body resolves identifiers only when the
    function is taken from the base class and the enumeration class is
    passed for [self]: it then returns a member or raises [ValueError]
    (the [KeyError] of the look-up by name never leaves it); a name
    resolves to the value defined under that name, an ordinal to itself,
    and what is rejected is a name that no member has, or an integer that
    is the value of no member. *)
Theorem from_any_outcome e i :
  method "from_any" "identifier" from_any (Class e) i
  = Raise (missing "from_any" "identifier") ∧
  (∀ v, method "from_any" "identifier" from_any (Member e v) i
        = Raise (TypeError ("'" ++ enum_name e ++ "' object is not subscriptable"))) ∧
  match from_any (Class e) i with
  | Ok v =>
      v ∈ all_members e ∧
      match i with
      | Name s => (s, v) ∈ members e
      | Ordinal z => v = z
      end
  | Raise x =>
      (∃ msg, x = ValueError msg) ∧
      match i with
      | Name s => s ∉ (members e).*1
      | Ordinal z => z ∉ all_members e
      end
  | Hang => False
  end.
Proof.
  split; [done|]. split; [done|].
  destruct (from_any (Class e) i) as [v|x|] eqn:Hi.
  - split; [by eapply from_any_member|].
    destruct i as [s|z]; [by apply from_any_Name|by eapply from_any_Ordinal_Ok].
  - split; [by eapply from_any_ValueError|].
    destruct i as [s|z]; [by eapply from_any_Name_unknown|].
    intros Hz%from_any_Ordinal. congruence.
  - by destruct (from_any_returns e i).
Qed.

End HelpfulIntEnumLaws.

(** ** Status tokens of the asynchronous backend *)
Module StatusTokens.
Import HelpfulIntEnum DaqLCLS2 HelpfulIntEnumFacts HelpfulIntEnumLaws.

Ltac unfold_cb :=
  unfold subscribe_run, add_callback, timer_expired, check_state,
    check_transition, success, set_finished, try_except,
    run_cb, mbind, M_bind, bind, gets, modify, ret, mret, M_ret,
    complete_with, clean_up in *;
  simpl in *.

Section Backend.
Context `{Psdaq}.

(** What one event does to the token [h]. *)
Definition token_after (ev : event) (h : nat) (d : daq) (tk : token) : token :=
  match ev with
  | PutState v =>
      if state_cbid tk then run_cb (check_state v (sig_get (state_sig d))) tk
      else tk
  | PutTransition v =>
      if transition_cbid tk
      then run_cb (check_transition v (sig_get (transition_sig d))) tk
      else tk
  | TimerExpired h' => if decide (h' = h) then timer_expired tk else tk
  end.

Lemma deliver_lookup ev d h tk :
  tokens d !! h = Some tk →
  tokens (deliver ev d) !! h = Some (token_after ev h d tk).
Proof.
  intros Hh. destruct ev as [v|v|h']; simpl.
  - by rewrite list_lookup_fmap, Hh.
  - by rewrite list_lookup_fmap, Hh.
  - destruct (decide (h' = h)) as [->|Hne].
    + by rewrite list_lookup_alter_eq, Hh.
    + by rewrite list_lookup_alter_ne.
Qed.

(** A property of a token that the callbacks and the timer keep holds
    after every sequence of events. *)
Lemma run_token_ind (P : token → Prop) (Q : event → Prop) h :
  (∀ tk v old, P tk → Q (PutState v) → state_cbid tk = true →
               P (run_cb (check_state v old) tk)) →
  (∀ tk v old, P tk → Q (PutTransition v) → transition_cbid tk = true →
               P (run_cb (check_transition v old) tk)) →
  (∀ tk, P tk → P (timer_expired tk)) →
  ∀ evs d tk, Forall Q evs → tokens d !! h = Some tk → P tk →
              ∃ tk', tokens (run evs d) !! h = Some tk' ∧ P tk'.
Proof.
  intros Hs Ht Htimer evs. induction evs as [|ev evs IH]; intros d tk HQ Hh HP.
  - exists tk. by split.
  - apply Forall_cons in HQ as [Hev HQ].
    change (run (ev :: evs) d) with (run evs (deliver ev d)).
    apply (IH (deliver ev d) (token_after ev h d tk) HQ).
    + by apply deliver_lookup.
    + destruct ev as [v|v|h']; simpl.
      * destruct (state_cbid tk) eqn:Hc; [by apply Hs|done].
      * destruct (transition_cbid tk) eqn:Hc; [by apply Ht|done].
      * destruct (decide (h' = h)); [by apply Htimer|done].
Qed.

Lemma run_app evs1 evs2 (d : daq) : run (evs1 ++ evs2) d = run evs2 (run evs1 d).
Proof. unfold run. by rewrite foldl_app. Qed.

(** A token is either pending, never completed, with its clean-up
    attached and both callbacks subscribed, or done, completed once, with
    both callbacks unsubscribed. *)
Definition tidy (tk : token) : Prop :=
  match status tk with
  | Pending =>
      completed tk = 0%nat ∧ callbacks tk = true ∧
      state_cbid tk = true ∧ transition_cbid tk = true
  | _ =>
      completed tk = 1%nat ∧ state_cbid tk = false ∧ transition_cbid tk = false
  end.

Lemma tidy_check_state tk v old :
  tidy tk → tidy (run_cb (check_state v old) tk).
Proof.
  unfold tidy. unfold_cb.
  destruct (bool_decide (v = old) && negb (tk_check_now tk)); [done|].
  destruct (bool_decide _ && bool_decide _); [|done].
  destruct (status tk) eqn:E; simpl; rewrite ?E; try done.
  intros (-> & -> & _ & _). by simpl.
Qed.

Lemma tidy_check_transition tk v old :
  tidy tk → tidy (run_cb (check_transition v old) tk).
Proof.
  unfold tidy. unfold_cb.
  destruct (bool_decide (v = old) && negb (tk_check_now tk)); [done|].
  destruct (bool_decide _ && bool_decide _); [|done].
  destruct (status tk) eqn:E; simpl; rewrite ?E; try done.
  intros (-> & -> & _ & _). by simpl.
Qed.

Lemma tidy_timer_expired tk : tidy tk → tidy (timer_expired tk).
Proof.
  unfold tidy. unfold_cb.
  destruct (tk_timeout tk); [|done].
  destruct (status tk) eqn:E; simpl; rewrite ?E; try done.
  intros (-> & -> & _ & _). by simpl.
Qed.

(** The callbacks and the timer never touch the parameters of a token. *)
Definition parameters (tk : token) : gset (option Z) * gset (option Z) * bool * option Q :=
  (tk_state tk, tk_transition tk, tk_check_now tk, tk_timeout tk).

Lemma parameters_check_state tk v old :
  parameters (run_cb (check_state v old) tk) = parameters tk.
Proof.
  unfold parameters. unfold_cb.
  destruct (bool_decide (v = old) && negb (tk_check_now tk)); [done|].
  destruct (bool_decide _ && bool_decide _); [|done].
  destruct (status tk); simpl; try done. by destruct (callbacks tk).
Qed.

Lemma parameters_check_transition tk v old :
  parameters (run_cb (check_transition v old) tk) = parameters tk.
Proof.
  unfold parameters. unfold_cb.
  destruct (bool_decide (v = old) && negb (tk_check_now tk)); [done|].
  destruct (bool_decide _ && bool_decide _); [|done].
  destruct (status tk); simpl; try done. by destruct (callbacks tk).
Qed.

Lemma parameters_timer_expired tk : parameters (timer_expired tk) = parameters tk.
Proof.
  unfold parameters, timer_expired, complete_with, clean_up.
  destruct tk as [S T now [t|] ls lt [| |e] n [|] sc tc]; done.
Qed.

(** The token [make_token] appends. *)
Definition new_token (S T : gset (option Z)) (timeout : option Q)
    (check_now : bool) (d : daq) : token :=
  let tk := Token S T check_now timeout None None Pending 0 false false false in
  let tk := set_subscribed true false tk in
  let tk := subscribe_run check_now (state_sig d) check_state tk in
  let tk := set_subscribed (state_cbid tk) true tk in
  let tk := subscribe_run check_now (transition_sig d) check_transition tk in
  add_callback tk.

Lemma get_status_for_new_token st tr tmo now d h d1 :
  get_status_for st tr tmo now d = (Ok h, d1) →
  ∃ S T,
    target_set state_enum st = Ok S ∧
    target_set transition_enum tr = Ok T ∧
    h = length (tokens d) ∧
    d1 = Daq (state_sig d) (transition_sig d)
           (tokens d ++ [new_token S T tmo now d]) (_control d) (requests d).
Proof.
  unfold get_status_for, mbind, M_bind, bind, lift_result.
  destruct (target_set state_enum st) as [S| |]; try discriminate.
  destruct (target_set transition_enum tr) as [T| |]; try discriminate.
  unfold make_token. intros [= <- <-]. by exists S, T.
Qed.

Lemma new_token_lookup S T tmo now d :
  tokens (Daq (state_sig d) (transition_sig d)
            (tokens d ++ [new_token S T tmo now d]) (_control d) (requests d))
    !! length (tokens d)
  = Some (new_token S T tmo now d).
Proof. simpl. by rewrite list_lookup_middle. Qed.

Lemma parameters_subscribe_run run s cb tk :
  (∀ v old tk, parameters (run_cb (cb v old) tk) = parameters tk) →
  parameters (subscribe_run run s cb tk) = parameters tk.
Proof.
  intros Hcb. unfold subscribe_run. destruct run; [|done].
  destruct s as [[v old]|]; [apply Hcb|done].
Qed.

Lemma parameters_add_callback tk : parameters (add_callback tk) = parameters tk.
Proof. unfold add_callback. by destruct (status_done (status tk)). Qed.

Lemma parameters_set_subscribed a b tk :
  parameters (set_subscribed a b tk) = parameters tk.
Proof. done. Qed.

Lemma new_token_parameters S T tmo now d :
  parameters (new_token S T tmo now d) = (S, T, now, tmo).
Proof.
  unfold new_token.
  rewrite parameters_add_callback.
  rewrite parameters_subscribe_run by (intros; apply parameters_check_transition).
  rewrite parameters_set_subscribed.
  rewrite parameters_subscribe_run by (intros; apply parameters_check_state).
  done.
Qed.

(** What a callback does to a token, in one equation. *)
Lemma run_check_state tk v old :
  run_cb (check_state v old) tk =
    if bool_decide (v = old) && negb (tk_check_now tk) then tk
    else if bool_decide (v ∈ tk_state tk)
            && bool_decide (last_transition tk ∈ tk_transition tk)
         then match status tk with
              | Pending => complete_with Finished tk
              | _ => tk
              end
         else set_last_state v tk.
Proof.
  unfold run_cb, check_state, success, set_finished, try_except,
    mbind, M_bind, bind, gets, modify, ret.
  destruct (_ && negb _); [done|]. destruct (_ && _); [|done].
  by destruct (status tk).
Qed.

Lemma run_check_transition tk v old :
  run_cb (check_transition v old) tk =
    if bool_decide (v = old) && negb (tk_check_now tk) then tk
    else if bool_decide (v ∈ tk_transition tk)
            && bool_decide (last_state tk ∈ tk_state tk)
         then match status tk with
              | Pending => complete_with Finished tk
              | _ => tk
              end
         else set_last_transition v tk.
Proof.
  unfold run_cb, check_transition, success, set_finished, try_except,
    mbind, M_bind, bind, gets, modify, ret.
  destruct (_ && negb _); [done|]. destruct (_ && _); [|done].
  by destruct (status tk).
Qed.

(** A token under construction: [clean_up] is not attached yet, and the
    token is pending or has just finished. *)
Definition building (sc tc : bool) (tk : token) : Prop :=
  callbacks tk = false ∧ state_cbid tk = sc ∧ transition_cbid tk = tc ∧
  (status tk = Pending ∧ completed tk = 0%nat ∨
   status tk = Finished ∧ completed tk = 1%nat).

Lemma building_check_state sc tc tk v old :
  building sc tc tk → building sc tc (run_cb (check_state v old) tk).
Proof.
  intros (Hcb & Hsc & Htc & Hst). rewrite run_check_state.
  destruct (_ && negb _); [done|]. destruct (_ && _); [|done].
  destruct Hst as [[Hs Hc]|[Hs Hc]]; rewrite Hs; [|by unfold building; auto 10].
  unfold building, complete_with. simpl. rewrite Hcb, Hc. simpl. auto 10.
Qed.

Lemma building_check_transition sc tc tk v old :
  building sc tc tk → building sc tc (run_cb (check_transition v old) tk).
Proof.
  intros (Hcb & Hsc & Htc & Hst). rewrite run_check_transition.
  destruct (_ && negb _); [done|]. destruct (_ && _); [|done].
  destruct Hst as [[Hs Hc]|[Hs Hc]]; rewrite Hs; [|by unfold building; auto 10].
  unfold building, complete_with. simpl. rewrite Hcb, Hc. simpl. auto 10.
Qed.

Lemma new_token_building S T tmo now d :
  ∃ tk, new_token S T tmo now d = add_callback tk ∧ building true true tk.
Proof.
  unfold new_token. eexists. split; [reflexivity|].
  set (tk0 := set_subscribed true false _).
  assert (H0 : building true false tk0) by (unfold building; simpl; auto 10).
  set (tk1 := subscribe_run now (state_sig d) check_state tk0).
  assert (H1 : building true false tk1).
  { unfold tk1, subscribe_run. destruct now; [|done].
    destruct (state_sig d) as [[v old]|]; [|done].
    by apply building_check_state. }
  assert (H2 : building true true (set_subscribed (state_cbid tk1) true tk1)).
  { destruct H1 as (? & ? & ? & ?). unfold building. simpl. auto 10. }
  unfold subscribe_run. destruct now; [|done].
  destruct (transition_sig d) as [[v old]|]; [|done].
  by apply building_check_transition.
Qed.

Lemma new_token_tidy S T tmo now d : tidy (new_token S T tmo now d).
Proof.
  destruct (new_token_building S T tmo now d)
    as (tk & -> & Hcb & Hsc & Htc & [[Hs Hc]|[Hs Hc]]);
    unfold tidy, add_callback; rewrite Hs; simpl; rewrite ?Hs; auto 10.
Qed.

(** A status is not handed out failed. *)
Lemma new_token_not_failed S T tmo now d e :
  status (new_token S T tmo now d) ≠ Failed e.
Proof.
  destruct (new_token_building S T tmo now d)
    as (tk & -> & Hcb & Hsc & Htc & [[Hs Hc]|[Hs Hc]]);
    unfold add_callback; rewrite Hs; simpl; by rewrite Hs.
Qed.

(** X6: whatever [get_status_for] is asked for, the status it returns
    completes at most once, and when it is done (finished at creation,
    finished by an event, or timed out) both callbacks are unsubscribed;
    from then on no event changes it. *)
Theorem token_completes_once_and_unsubscribes d st tr tmo now h d1 evs :
  get_status_for st tr tmo now d = (Ok h, d1) →
  ∃ tk, tokens (run evs d1) !! h = Some tk ∧
    match status tk with
    | Pending =>
        completed tk = 0%nat ∧ state_cbid tk = true ∧ transition_cbid tk = true
    | _ =>
        completed tk = 1%nat ∧ state_cbid tk = false ∧ transition_cbid tk = false
    end ∧
    (∀ n tk0, tokens (run (take n evs) d1) !! h = Some tk0 →
              status tk0 ≠ Pending → tk = tk0).
Proof.
  intros (S & T & _ & _ & -> & ->)%get_status_for_new_token.
  pose proof (new_token_lookup S T tmo now d) as Hnew.
  pose proof (new_token_tidy S T tmo now d) as Htidy.
  assert (Hrun : ∀ evs d0 tk0, tokens d0 !! length (tokens d) = Some tk0 →
            tidy tk0 →
            ∃ tk, tokens (run evs d0) !! length (tokens d) = Some tk ∧ tidy tk).
  { intros evs' d0 tk0 Hh Ht.
    apply (run_token_ind tidy (λ _, True) _
             (λ tk v old Htk _ _, tidy_check_state tk v old Htk)
             (λ tk v old Htk _ _, tidy_check_transition tk v old Htk)
             tidy_timer_expired evs' d0 tk0); [|done..].
    by apply Forall_forall. }
  destruct (Hrun evs _ _ Hnew Htidy) as (tk & Hh & Ht).
  exists tk. split; [done|]. split.
  { unfold tidy in Ht. destruct (status tk); tauto. }
  intros n tk0 Hh0 Hdone.
  destruct (Hrun (take n evs) _ _ Hnew Htidy) as (tk0' & Hh0' & Ht0).
  rewrite Hh0 in Hh0'. injection Hh0' as <-.
  assert (Hcb : state_cbid tk0 = false ∧ transition_cbid tk0 = false).
  { unfold tidy in Ht0. destruct (status tk0); [done|tauto..]. }
  destruct Hcb as [Hsc Htc].
  rewrite <- (take_drop n evs), run_app in Hh.
  destruct (run_token_ind (λ t, t = tk0) (λ _, True) (length (tokens d)))
    with (evs := drop n evs) (d := run (take n evs)
      (Daq (state_sig d) (transition_sig d)
         (tokens d ++ [new_token S T tmo now d]) (_control d) (requests d)))
         (tk := tk0) as (tk' & Hh' & ->); try done.
  - intros ? ? ? -> _ ?. congruence.
  - intros ? ? ? -> _ ?. congruence.
  - intros ? ->. unfold timer_expired. destruct (tk_timeout tk0); [|done].
    by destruct (status tk0).
  - by apply Forall_forall.
  - congruence.
Qed.

(** X7: a status asked for with a timeout that is still pending when its
    timer expires fails with [StatusTimeoutError], and no event that
    comes later finishes it. *)
Theorem timed_out_token_stays_failed d st tr t now h d1 evs1 evs2 tk1 :
  get_status_for st tr (Some t) now d = (Ok h, d1) →
  tokens (run evs1 d1) !! h = Some tk1 →
  status tk1 = Pending →
  ∃ tk, tokens (run (evs1 ++ TimerExpired h :: evs2) d1) !! h = Some tk ∧
        status tk = Failed StatusTimeoutError ∧ completed tk = 1%nat ∧
        state_cbid tk = false ∧ transition_cbid tk = false.
Proof.
  intros (S & T & _ & _ & -> & ->)%get_status_for_new_token Hh1 Hpending.
  pose proof (new_token_lookup S T (Some t) now d) as Hnew.
  set (P := λ tk : token, tidy tk ∧ tk_timeout tk = Some t).
  destruct (run_token_ind P (λ _, True) (length (tokens d)))
    with (evs := evs1)
         (d := Daq (state_sig d) (transition_sig d)
                 (tokens d ++ [new_token S T (Some t) now d])
                 (_control d) (requests d))
         (tk := new_token S T (Some t) now d) as (tk1' & Hh1' & Ht1 & Htmo);
    try done.
  - intros tk v old [Ht Hp] _ _. split; [by apply tidy_check_state|].
    pose proof (parameters_check_state tk v old) as Hpar.
    unfold parameters in Hpar. congruence.
  - intros tk v old [Ht Hp] _ _. split; [by apply tidy_check_transition|].
    pose proof (parameters_check_transition tk v old) as Hpar.
    unfold parameters in Hpar. congruence.
  - intros tk [Ht Hp]. split; [by apply tidy_timer_expired|].
    pose proof (parameters_timer_expired tk) as Hpar.
    unfold parameters in Hpar. congruence.
  - by apply Forall_forall.
  - split; [apply new_token_tidy|].
    pose proof (new_token_parameters S T (Some t) now d) as Hpar.
    unfold parameters in Hpar. congruence.
  - rewrite Hh1 in Hh1'. injection Hh1' as <-.
    set (failed := timer_expired tk1).
    assert (Hfailed : status failed = Failed StatusTimeoutError ∧
                      completed failed = 1%nat ∧
                      state_cbid failed = false ∧ transition_cbid failed = false).
    { unfold failed, timer_expired, complete_with. rewrite Htmo, Hpending.
      unfold tidy in Ht1. rewrite Hpending in Ht1.
      destruct Ht1 as (Hc0 & Hcb & _ & _). simpl. rewrite Hcb, Hc0. by simpl. }
    destruct Hfailed as (Hst & Hc & Hsc & Htc).
    rewrite run_app.
    change (run (TimerExpired (length (tokens d)) :: evs2) ?d0)
      with (run evs2 (deliver (TimerExpired (length (tokens d))) d0)).
    destruct (run_token_ind (λ tk, tk = failed) (λ _, True) (length (tokens d)))
      with (evs := evs2)
           (d := deliver (TimerExpired (length (tokens d)))
                   (run evs1
                      (Daq (state_sig d) (transition_sig d)
                         (tokens d ++ [new_token S T (Some t) now d])
                         (_control d) (requests d))))
           (tk := failed) as (tk & Hh & ->); try done.
    + intros ? ? ? -> _ ?. congruence.
    + intros ? ? ? -> _ ?. congruence.
    + intros ? ->. unfold timer_expired at 1. rewrite Hst.
      by destruct (tk_timeout failed).
    + by apply Forall_forall.
    + rewrite (deliver_lookup _ _ _ tk1 Hh1). simpl.
      by rewrite decide_True.
    + by exists failed.
Qed.

(** *** What raises before a status is made *)

(** X10: [get_done_status] raises [TypeError] and makes no status: the
    transitions to wait for are asked of [exclude], which is called on
    the enumeration class, before [get_status_for] is entered.  [wait],
    which starts with [get_done_status], raises the same before it waits
    and before it ends the run, whatever its timeout and [end_run]. *)
Theorem done_status_raises_TypeError d timeout e :
  get_done_status timeout d = (Raise (missing "exclude" "identifiers"), d) ∧
  wait timeout e d = (Raise (missing "exclude" "identifiers"), d).
Proof. done. Qed.

(** X22: [__init__] raises [TypeError] at its first statement after
    [super().__init__(...)], the [put] of [from_any('reset')] to
    [state_sig]: neither signal is put, the peer object is not built or
    assigned, and the object stays as the base class built it. *)
Theorem init_raises_TypeError control :
  __init__ control built = (Raise (missing "from_any" "identifier"), built) ∧
  state_sig (snd (__init__ control built)) = None ∧
  transition_sig (snd (__init__ control built)) = None ∧
  _control (snd (__init__ control built)) = None.
Proof. done. Qed.

End Backend.

(** On the object that a failed [__init__] leaves registered: a status
    asked for without targets, with a timeout of fifteen seconds. *)
Definition without_targets : result nat * @daq sim_psdaq :=
  get_status_for None None (Some 15%Q) true built.

Example without_targets_pending :
  (λ tk, (status tk, tk_state tk, tk_transition tk)) <$>
    tokens (snd without_targets) !! 0%nat
  = Some (Pending, {[ None ]}, {[ None ]}).
Proof. vm_compute. reflexivity. Qed.

Lemma token_completes_once_and_unsubscribes_witness :
  ∃ tk,
    tokens (run [PutState (Some 1); TimerExpired 0; PutTransition (Some 15)]
              (snd without_targets)) !! 0%nat = Some tk ∧
    match status tk with
    | Pending =>
        completed tk = 0%nat ∧ state_cbid tk = true ∧ transition_cbid tk = true
    | _ =>
        completed tk = 1%nat ∧ state_cbid tk = false ∧ transition_cbid tk = false
    end ∧
    (∀ n tk0,
       tokens (run (take n [PutState (Some 1); TimerExpired 0;
                            PutTransition (Some 15)])
                 (snd without_targets)) !! 0%nat = Some tk0 →
       status tk0 ≠ Pending → tk = tk0).
Proof.
  apply (@token_completes_once_and_unsubscribes sim_psdaq built
           None None (Some 15%Q) true).
  vm_compute. reflexivity.
Defined.

Lemma timed_out_token_stays_failed_witness :
  ∃ tk,
    tokens (run ([PutState (Some 1)] ++
                 TimerExpired 0 :: [PutTransition None])
              (snd without_targets)) !! 0%nat = Some tk ∧
    status tk = Failed StatusTimeoutError ∧ completed tk = 1%nat ∧
    state_cbid tk = false ∧ transition_cbid tk = false.
Proof.
  eapply (@timed_out_token_stays_failed sim_psdaq built
            None None 15%Q true
            0%nat (snd without_targets) [PutState (Some 1)]
            [PutTransition None]).
  - vm_compute. reflexivity.
  - vm_compute. reflexivity.
  - reflexivity.
Defined.

(** [get_done_status()] on it. *)
Example done_status_on_the_built_object :
  @get_done_status sim_psdaq None built
  = (Raise (TypeError "HelpfulIntEnum.exclude() missing 1 required positional argument: 'identifiers'"),
     built).
Proof. reflexivity. Qed.

End StatusTokens.

(** ** Connecting, stopping and starting on the synchronous backend *)
Module DaqLCLS1Laws.
Import DaqLCLS1 DaqLCLS1Facts.

Section Backend.
Context `{Pydaq}.

Lemma set_control_same w : _control w = None → set_control None w = w.
Proof. destruct w; simpl. by intros ->. Qed.

Lemma Qltb_lt a b : (a < b)%Q → Qltb a b = true.
Proof.
  intros Hlt. unfold Qltb. apply negb_true_iff.
  destruct (Qle_bool b a) eqn:Hle; [|done].
  apply Qle_bool_iff in Hle. exfalso. by apply (Qlt_not_le a b).
Qed.

(** *** [connect] and [check_connect] *)

Lemma connect_loop_refused plats err w :
  (∀ plat, ∃ e, Control_new hostname plat = Raise e ∧ is_Exception e = true) →
  ∃ err', connect_loop plats err w = (Ok (err', false), w).
Proof.
  intros Hnew. revert err. induction plats as [|plat plats IH]; intros err; simpl.
  - by exists err.
  - destruct (Hnew plat) as (e & He & Hexc).
    unfold connect_attempt. run_monad. rewrite He, Hexc. apply IH.
Qed.

(** X11: on a host where no platform lets a [Control] be built, [connect]
    returns after trying the six platforms and leaves the object as it
    was, and every method under [check_connect] raises
    [RuntimeError('Could not connect to DAQ')] without running its body:
    [stop], [end_run], [wait], [configure] and [kickoff] change nothing. *)
Theorem no_daq_no_method w :
  (∀ plat, ∃ e, Control_new hostname plat = Raise e ∧ is_Exception e = true) →
  _control w = None →
  let refused {A} : result A * world :=
    (Raise (RuntimeError "Could not connect to DAQ"), w) in
  connect w = (Ok tt, w) ∧
  (∀ A (f : M world A), check_connect f w = refused) ∧
  stop w = refused ∧
  end_run w = refused ∧
  (∀ timeout e, wait timeout e w = refused) ∧
  (∀ events duration record use_l3t controls begin_sleep,
     configure events duration record use_l3t controls begin_sleep w = refused) ∧
  (∀ kw, kickoff kw w = refused).
Proof.
  intros Hnew Hc refused.
  assert (Hconnect : connect w = (Ok tt, w)).
  { destruct (connect_loop_refused [0; 1; 2; 3; 4; 5] false w Hnew)
      as [err' Hloop].
    unfold connect, connected. run_monad. cbv beta. rewrite Hc, Hloop.
    cbv beta iota. unfold fst, snd. rewrite orb_false_r, orb_negb_r.
    by rewrite set_control_same. }
  assert (Hcheck : ∀ A (f : M world A), check_connect f w = refused A).
  { intros A f. unfold check_connect, connected. run_monad. cbv beta.
    rewrite Hc. cbv beta iota. unfold negb. rewrite Hconnect.
    cbv beta iota. by rewrite Hc. }
  split; [done|]. split; [done|].
  repeat split; intros; apply Hcheck.
Qed.

Lemma connect_loop_err plats w r w' :
  connect_loop plats true w = (Ok r, w') → fst r = true.
Proof.
  revert w. induction plats as [|plat plats IH]; intros w; simpl.
  - by intros [= <- _].
  - run_monad.
    destruct (connect_attempt plat w) as [[[]|e|] w1]; simpl.
    + by intros [= <- _].
    + destruct (is_Exception e); [|done]. apply IH.
    + done.
Qed.

(** X12: once platform 0 has answered with an error that has [query] in
    its text (the DAQ is there but not allocated), [connect] ends
    disconnected whatever the other platforms do: a platform that accepts
    the connection afterwards is dropped again, its [Control] never
    disconnected. *)
Theorem connect_drops_after_query_error w e :
  _control w = None →
  Control_new hostname 0 = Raise e ∨
    (∃ c, Control_new hostname 0 = Ok c ∧ fst (control_connect c) = Raise e) →
  is_Exception e = true →
  contains "query" (exn_str e) = true →
  fst (connect w) = Ok tt →
  _control (snd (connect w)) = None.
Proof.
  intros Hc Hfirst Hexc Hquery.
  assert (Hloop : ∃ w1, connect_loop [0; 1; 2; 3; 4; 5] false w
                        = connect_loop [1; 2; 3; 4; 5] true w1).
  { change (connect_loop [0; 1; 2; 3; 4; 5] false) with
      (failed ← try_except (connect_attempt 0;; ret None) is_Exception
                 (λ exc, ret (Some (contains "query" (exn_str exc))));
       match failed with
       | None => ret (false, true)
       | Some query => connect_loop [1; 2; 3; 4; 5] (false || query)
       end).
    unfold connect_attempt. run_monad.
    destruct Hfirst as [Hnew|(c & Hnew & Hconn)]; rewrite Hnew.
    - rewrite Hexc, Hquery. by exists w.
    - cbv beta iota.
      rewrite (call_control_connected RpcConnect control_connect
                 (set_control (Some c) w) c eq_refl).
      rewrite Hconn, Hexc, Hquery. eauto. }
  destruct Hloop as [w1 Hloop].
  unfold connect, connected. run_monad. cbv beta. rewrite Hc, Hloop.
  cbv beta iota.
  destruct (connect_loop [1; 2; 3; 4; 5] true w1) as [[r|e'|] w'] eqn:Hrest;
    try done.
  apply connect_loop_err in Hrest. rewrite Hrest. by simpl.
Qed.

(** *** [stop] and [end_run] *)

(** X13: on a connected object [end_run] asks the peer to stop before it
    asks it to end the run.  When the peer refuses to stop, the exception
    is passed on, the run is not ended and neither [_last_stop] nor
    [_begin] is touched; when it stops, [stop] resets [_begin] and records
    the time after the call in [_last_stop], and [end_run] returns what
    the peer's [endrun] returns. *)
Theorem end_run_stops_first w c :
  _control w = Some c →
  let w1 := called RpcStop (snd (control_stop c)) w in
  let w2 := set_last_stop (now w1) (set_begin reset_begin w1) in
  (∀ e, fst (control_stop c) = Raise e →
        stop w = (Raise e, w1) ∧ end_run w = (Raise e, w1)) ∧
  (fst (control_stop c) = Ok tt →
   stop w = (Ok tt, w2) ∧
   end_run w = (fst (control_endrun (snd (control_stop c))),
                called RpcEndrun (snd (control_endrun (snd (control_stop c)))) w2)).
Proof.
  intros Hc w1 w2.
  assert (Hstop : stop w =
    match fst (control_stop c) with
    | Ok _ => (Ok tt, w2)
    | Raise e => (Raise e, w1)
    | Hang => (Hang, w1)
    end).
  { unfold stop. rewrite (check_connect_connected _ w c Hc).
    unfold _reset_begin, time_time. run_monad.
    rewrite (call_control_connected RpcStop control_stop w c Hc).
    by destruct (fst (control_stop c)) as [[]| |]. }
  assert (Hend : end_run w =
    match fst (control_stop c) with
    | Ok _ => (fst (control_endrun (snd (control_stop c))),
               called RpcEndrun (snd (control_endrun (snd (control_stop c)))) w2)
    | Raise e => (Raise e, w1)
    | Hang => (Hang, w1)
    end).
  { unfold end_run. rewrite (check_connect_connected _ w c Hc).
    run_monad. rewrite Hstop.
    by destruct (fst (control_stop c)) as [[]| |]. }
  split.
  - intros e He. rewrite Hstop, Hend, He. by split.
  - intros Hok. rewrite Hstop, Hend, Hok. by split.
Qed.

(** *** [kickoff] *)

Definition short_duration : exn :=
  RuntimeError "Duration argument less than 1 is unreliable. Please use the events argument to specify the length of very short runs.".

(** X14: on a connected object, [kickoff] with a duration below one
    second raises [RuntimeError] before anything else happens: the peer
    is not called, no status is made, nothing is configured; this also
    when [events] is given, which would make the duration unused. *)
Theorem kickoff_rejects_short_duration w c events v q use_l3t controls :
  _control w = Some c →
  as_number v = Some q →
  (q < 1)%Q →
  kickoff [("events", events); ("duration", Given v); ("use_l3t", use_l3t);
           ("controls", controls)] w
  = (Raise short_duration, w).
Proof.
  intros Hc Hv Hq. unfold kickoff. rewrite (check_connect_connected _ w c Hc).
  unfold kickoff_body. run_monad. simpl.
  unfold _check_duration, py_eq. rewrite Hv. simpl.
  destruct v; simpl in Hv; try discriminate; by rewrite (Qltb_lt _ _ Hq).
Qed.

(** *** The arguments of the begin call *)

(** A computation that only reads the object: it leaves the world as it
    is, and what it returns satisfies [P]. *)
Definition reads {A} (c : M world A) (P : A → Prop) : Prop :=
  ∀ w, snd (c w) = w ∧ match fst (c w) with Ok a => P a | _ => True end.

Lemma reads_ret {A} (a : A) (P : A → Prop) : P a → reads (ret a) P.
Proof. by intros HP w. Qed.

Lemma reads_mret {A} (a : A) (P : A → Prop) : P a → reads (mret a) P.
Proof. by intros HP w. Qed.

Lemma reads_raise {A} e (P : A → Prop) : reads (raise e) P.
Proof. by intros w. Qed.

Lemma reads_gets {A} (f : world → A) (P : A → Prop) :
  (∀ w, P (f w)) → reads (gets f) P.
Proof. intros HP w. split; [done|apply HP]. Qed.

Lemma reads_lift_result {A} (r : result A) (P : A → Prop) :
  (∀ a, r = Ok a → P a) → reads (lift_result r) P.
Proof. intros HP w. split; [done|]. simpl. destruct r; auto. Qed.

Lemma reads_bind {A B} (c : M world A) (k : A → M world B) P Q :
  reads c P → (∀ a, P a → reads (k a) Q) → reads (c ≫= k) Q.
Proof.
  intros Hc Hk w. unfold mbind, M_bind, bind.
  destruct (Hc w) as [Hw Ha]. destruct (c w) as [[a|e|] w1]; simpl in *;
    subst w1; try done.
  apply (Hk a Ha w).
Qed.

Lemma reads_True {A} (c : M world A) P : reads c P → reads c (λ _, True).
Proof. intros Hc w. destruct (Hc w) as [? _]. split; [done|]. by destruct (fst (c w)). Qed.

Lemma reads_getattr name : reads (Daq.getattr cls name) (λ _, True).
Proof.
  unfold Daq.getattr. destruct (find _ _); [by apply reads_ret|].
  eapply reads_bind with (P := λ _, True); [by apply reads_gets|].
  intros [o|] _; [by apply reads_ret|].
  apply reads_raise.
Qed.

Lemma reads_get attr : reads (Daq.get cls attr) (λ _, True).
Proof.
  unfold Daq.get. eapply reads_bind; [apply reads_getattr|].
  intros [c|name [e|k v|v]] _; simpl;
    first [by apply reads_gets | by apply reads_ret | apply reads_raise].
Qed.

Lemma reads_config_item key : reads (config_item key) (λ _, True).
Proof.
  unfold config_item, Daq.config, Daq.configured.
  eapply reads_bind with (P := λ _, True).
  - eapply reads_bind; [apply reads_get|]. intros c _.
    destruct (truthy c); [by apply reads_gets|by apply reads_ret].
  - intros config _. unfold Daq.getitem.
    destruct (find _ config); [by apply reads_ret|apply reads_raise].
Qed.

Lemma reads_secs_nsec d : reads (secs_nsec d) (λ _, True).
Proof.
  unfold secs_nsec. destruct (as_number d); [by apply reads_ret|apply reads_raise].
Qed.

(** How many of the three length keys the arguments carry. *)
Definition lengths (a : begin_args) : nat :=
  (match bgn_events a with Some _ => 1 | None => 0 end
   + match bgn_l3t_events a with Some _ => 1 | None => 0 end
   + match bgn_duration a with Some _ => 1 | None => 0 end)%nat.

Lemma reads_begin_args events duration use_l3t controls :
  reads (_begin_args events duration use_l3t controls) (λ a, lengths a = 1%nat).
Proof.
  unfold _begin_args.
  eapply reads_bind with (P := λ _, True).
  { destruct events, duration; try (by apply reads_ret).
    eapply reads_bind; [apply reads_config_item|]. intros e _.
    eapply reads_bind; [apply reads_config_item|]. intros d _.
    by apply reads_ret. }
  intros [events' duration'] _. simpl.
  eapply reads_bind with (P := λ a, lengths a = 1%nat).
  { assert (Hduration : ∀ d,
      reads (if in_None_CONFIG_VAL (Given d)
             then ret (BeginArgs (Some (VInt 0)) None None None)
             else sn ← secs_nsec d; ret (BeginArgs None None (Some sn) None))
        (λ a, lengths a = 1%nat)).
    { intros d. destruct (in_None_CONFIG_VAL (Given d)); [by apply reads_ret|].
      eapply reads_bind; [apply reads_secs_nsec|]. intros sn _.
      by apply reads_ret. }
    destruct events' as [|e].
    - destruct duration' as [|d]; [by apply reads_ret|apply Hduration].
    - destruct (in_None_CONFIG_VAL (Given e)).
      + destruct duration' as [|d]; [by apply reads_ret|apply Hduration].
      + eapply reads_bind; [apply reads_get|]. intros configured _.
        eapply reads_bind with (P := λ _, True).
        * destruct (_ && _); [|by apply reads_ret].
          eapply reads_bind; [apply reads_config_item|]. intros u _.
          by apply reads_ret.
        * intros u _. destruct (truthy_arg u); by apply reads_ret. }
  intros args Hargs.
  eapply reads_bind with (P := λ _, True).
  { destruct controls; [apply reads_config_item|by apply reads_ret]. }
  intros c _. destruct (is_None c); [by apply reads_ret|].
  eapply reads_bind with (P := λ _, True); [by apply reads_lift_result|].
  intros c' _. by apply reads_mret.
Qed.

(** X15: whatever is passed and whatever is configured, the arguments
    [_begin_args] builds for the peer's begin call carry exactly one of
    [events], [l3t_events] and [duration], and building them changes
    nothing on the object. *)
Theorem begin_args_one_length events duration use_l3t controls w a w' :
  _begin_args events duration use_l3t controls w = (Ok a, w') →
  lengths a = 1%nat ∧ w' = w.
Proof.
  intros Hargs.
  destruct (reads_begin_args events duration use_l3t controls w) as [Hw Ha].
  rewrite Hargs in Hw, Ha. simpl in *. by split.
Qed.

(** The same at one world, so that what is returned can be related to
    that world. *)
Definition reads_in (w : world) {A} (c : M world A) (P : A → Prop) : Prop :=
  snd (c w) = w ∧ match fst (c w) with Ok a => P a | _ => True end.

Lemma reads_in_reads w {A} (c : M world A) P : reads c P → reads_in w c P.
Proof. intros Hc. apply Hc. Qed.

Lemma reads_in_ret w {A} (a : A) (P : A → Prop) : P a → reads_in w (ret a) P.
Proof. by intros HP. Qed.

Lemma reads_in_mret w {A} (a : A) (P : A → Prop) : P a → reads_in w (mret a) P.
Proof. by intros HP. Qed.

Lemma reads_in_bind w {A B} (c : M world A) (k : A → M world B) P Q :
  reads_in w c P → (∀ a, P a → reads_in w (k a) Q) → reads_in w (c ≫= k) Q.
Proof.
  intros [Hw Ha] Hk. unfold reads_in, mbind, M_bind, bind.
  destruct (c w) as [[a|e|] w1]; simpl in *; subst w1; try done.
  apply (Hk a Ha).
Qed.

Lemma reads_in_configured w :
  reads_in w (Daq.configured cls) (λ c, signal_value "configured_sig" w = Ok c).
Proof.
  unfold Daq.configured, signal_value.
  destruct (reads_get "configured_sig" w) as [Hw _]. split; [done|].
  by destruct (fst (Daq.get cls "configured_sig" w)).
Qed.

(** X16: when [events] is given (and is not [None]), a duration passed
    along is not sent: the peer is asked for that number of events, as
    [events] or as [l3t_events].  With [use_l3t] left out on an object
    whose [configured_sig] is false it is [l3t_events]: the sentinel
    object that stands for the missing argument counts as true. *)
Theorem begin_args_events_first ev duration use_l3t controls w a w' :
  py_eq ev VNone = false →
  _begin_args (Given ev) duration use_l3t controls w = (Ok a, w') →
  bgn_duration a = None ∧
  (bgn_events a = Some ev ∧ bgn_l3t_events a = None ∨
   bgn_l3t_events a = Some ev ∧ bgn_events a = None) ∧
  (use_l3t = CONFIG_VAL →
   signal_value "configured_sig" w = Ok (VBool false) →
   bgn_l3t_events a = Some ev).
Proof.
  intros Hev Hargs.
  set (Q := λ a : begin_args,
    bgn_duration a = None ∧
    (bgn_events a = Some ev ∧ bgn_l3t_events a = None ∨
     bgn_l3t_events a = Some ev ∧ bgn_events a = None) ∧
    (use_l3t = CONFIG_VAL →
     signal_value "configured_sig" w = Ok (VBool false) →
     bgn_l3t_events a = Some ev)).
  assert (Hreads : reads_in w (_begin_args (Given ev) duration use_l3t controls) Q).
  { unfold _begin_args.
    eapply reads_in_bind with (P := λ p, p = (Given ev, duration)).
    { destruct duration; by apply reads_in_ret. }
    intros p ->. simpl. rewrite Hev.
    eapply reads_in_bind with (P := Q).
    { eapply reads_in_bind; [apply reads_in_configured|]. intros c Hc.
      eapply reads_in_bind with
        (P := λ u, use_l3t = CONFIG_VAL →
                   signal_value "configured_sig" w = Ok (VBool false) →
                   u = CONFIG_VAL).
      - destruct (in_None_CONFIG_VAL use_l3t && truthy c) eqn:Hcond.
        + eapply reads_in_bind;
            [apply reads_in_reads, reads_config_item|].
          intros u _. apply reads_in_ret. intros -> Hfalse.
          rewrite Hfalse in Hc. injection Hc as <-. done.
        + by apply reads_in_ret.
      - intros u Hu. destruct (truthy_arg u) eqn:Htruthy; apply reads_in_ret;
          unfold Q; simpl; (split; [done|]); (split; [auto|]).
        + done.
        + intros Hl3t Hfalse. rewrite (Hu Hl3t Hfalse) in Htruthy. done. }
    intros args Hargs'.
    eapply reads_in_bind with (P := λ _, True).
    { destruct controls;
        [apply reads_in_reads, reads_config_item|by apply reads_in_ret]. }
    intros c _. destruct (is_None c); [by apply reads_in_ret|].
    eapply reads_in_bind with (P := λ _, True).
    { apply reads_in_reads. by apply reads_lift_result. }
    intros c' _. by apply reads_in_mret. }
  destruct Hreads as [_ Hq]. by rewrite Hargs in Hq.
Qed.

(** *** The end of an acquisition *)

(** X17: the worker of the end status asks the peer for the end of the
    acquisition.  When that returns, or raises [RuntimeError] (the peer
    was not running), the worker records the time in [_last_stop], resets
    [_begin] and finishes the status; any other exception ends the
    worker there, and the status stays pending. *)
Theorem finish_thread_outcome w c h :
  _control w = Some c →
  statuses w !! h = Some Pending →
  let w1 := called RpcEnd (snd (control_end c)) w in
  match fst (control_end c) with
  | Hang => finish_thread h w = (Hang, w1)
  | Raise e =>
      if is_RuntimeError e
      then finish_thread h w
           = (Ok tt, set_statuses (<[h := Finished]>)
                       (set_begin reset_begin (set_last_stop (now w1) w1)))
      else finish_thread h w = (Raise e, w1) ∧
           statuses w1 !! h = Some Pending ∧ _last_stop w1 = _last_stop w
  | Ok _ =>
      finish_thread h w
      = (Ok tt, set_statuses (<[h := Finished]>)
                  (set_begin reset_begin (set_last_stop (now w1) w1)))
  end.
Proof.
  intros Hc Hh w1. unfold finish_thread, _reset_begin, time_time,
    status_set_finished, status_complete.
  run_monad. rewrite (call_control_connected RpcEnd control_end w c Hc).
  fold w1. destruct (fst (control_end c)) as [[]|e|]; simpl.
  - by rewrite Hh.
  - destruct (is_RuntimeError e); simpl; [by rewrite Hh|done].
  - done.
Qed.

(** X18: while no begin is in progress ([_begin] is as [__init__] and
    [stop] leave it) the run counts as one without end: the end status
    comes back finished, at once and without a call to the peer, and
    [complete] goes on to [stop]. *)
Theorem end_status_without_begin w :
  _begin w = reset_begin →
  let w1 := set_statuses (λ l, <[length (statuses w) := Finished]>
                                 (l ++ [Pending])%list) w in
  _infinite_run w = (Ok true, w) ∧
  _get_end_status w = (Ok (length (statuses w)), w1) ∧
  statuses w1 !! length (statuses w) = Some Finished ∧
  trace w1 = trace w ∧
  complete w = (stop;; ret (length (statuses w))) w1.
Proof.
  intros Hb w1.
  assert (Hinf : ∀ w0, _begin w0 = reset_begin → _infinite_run w0 = (Ok true, w0)).
  { intros w0 Hb0. unfold _infinite_run, _events, _duration. run_monad.
    rewrite Hb0. simpl. rewrite ?Hb0. simpl. rewrite ?Hb0. done. }
  assert (Hend : _get_end_status w = (Ok (length (statuses w)), w1)).
  { unfold _get_end_status. unfold mbind, M_bind. unfold bind at 1 2 3.
    assert (He : _events w = (Ok VNone, w))
      by (unfold _events; run_monad; by rewrite Hb).
    assert (Hd : _duration w = (Ok VNone, w))
      by (unfold _duration; run_monad; by rewrite Hb).
    rewrite He, Hd, (Hinf w Hb). cbv beta iota. unfold negb.
    unfold Status_new, status_set_finished, status_complete. run_monad.
    simpl. rewrite list_lookup_middle by done. simpl.
    unfold w1. destruct w; simpl. do 2 f_equal. }
  split; [by apply Hinf|]. split; [done|].
  split; [|split; [done|]].
  - simpl. rewrite list_lookup_insert_eq; [done|]. rewrite length_app. simpl. lia.
  - unfold complete. unfold mbind, M_bind. unfold bind at 1 2.
    rewrite Hend. cbv beta iota. rewrite (Hinf w1) by done. done.
Qed.

(** *** [run_number] *)

(** X19: [run_number] looks at the hutch name before anything else: a
    name that, in lower case, is none of the eight hutches is a
    [ValueError], raised without a query to the peer or a call of the
    script; and without a name, on the object or in the call, the look-up
    of the hutch fails with [AttributeError], as the module [ext_scripts]
    has no [get_hutch_name]. *)
Theorem run_number_wants_a_hutch w h :
  h ≠ "" →
  among valid_hutches (lower h) = false →
  run_number (Some h) w
  = (Raise (ValueError (lower h
              ++ " is not a valid hutch, cannot determine run number")), w) ∧
  (hutch_name w = None →
   run_number None w
   = (Raise (AttributeError
        "module 'pcdsdaq.ext_scripts' has no attribute 'get_hutch_name'"), w) ∧
   run_number (Some "") w = run_number None w).
Proof.
  intros Hh Hvalid. split.
  - unfold run_number. run_monad.
    destruct (String.eqb_spec h ""); [done|]. cbv beta iota.
    by rewrite Hvalid.
  - intros Hnone. unfold run_number. run_monad. simpl. by rewrite Hnone.
Qed.

(** *** Objects built and used through the class *)

(** X21: on an object that [__init__] built and that was used through
    its methods only (any calls, in any order, with time passing and the
    user interrupting as they like), nothing ever sets the attribute
    [_state_enum]; so whenever such an object is connected, reading
    [state] raises [AttributeError] after the peer was asked, and
    [configure] and [wait] raise it too, before they do anything else. *)
Theorem state_unreadable_when_connected w c :
  reachable w →
  _control w = Some c →
  extra_attrs w !! "_state_enum" = None ∧
  state w = (Raise (AttributeError "_state_enum"), queried w c) ∧
  (∀ events duration record use_l3t controls begin_sleep,
     configure events duration record use_l3t controls begin_sleep w
     = (Raise (AttributeError "_state_enum"), queried w c)) ∧
  (∀ timeout e,
     wait timeout e w = (Raise (AttributeError "_state_enum"), queried w c)).
Proof.
  intros Hreach Hc.
  pose proof (reachable_no_attribute w "_state_enum" Hreach) as Hattr.
  pose proof (state_connected w c Hc Hattr) as Hstate.
  split; [done|]. split; [done|]. split.
  - intros. unfold configure. rewrite (check_connect_connected _ w c Hc).
    run_monad. by rewrite Hstate.
  - intros. unfold wait. rewrite (check_connect_connected _ w c Hc).
    run_monad. by rewrite Hstate.
Qed.

End Backend.

(** On the simulated peers. *)

Lemma no_daq_no_method_witness :
  @kickoff (Sim.peer Sim.refused) [("events", Given (VInt 10))]
    (@__init__ (Sim.peer Sim.refused) None 0%Q [])
  = (Raise (RuntimeError "Could not connect to DAQ"),
     @__init__ (Sim.peer Sim.refused) None 0%Q []).
Proof.
  apply (@no_daq_no_method (Sim.peer Sim.refused)
           (@__init__ (Sim.peer Sim.refused) None 0%Q [])).
  - intros plat. eexists. split; reflexivity.
  - reflexivity.
Defined.

Lemma connect_drops_after_query_error_witness :
  @_control (Sim.peer Sim.unallocated_then_free)
    (snd (@connect (Sim.peer Sim.unallocated_then_free)
            (@__init__ (Sim.peer Sim.unallocated_then_free) None 0%Q [])))
  = None.
Proof.
  apply (@connect_drops_after_query_error (Sim.peer Sim.unallocated_then_free)
           (@__init__ (Sim.peer Sim.unallocated_then_free) None 0%Q [])
           (PeerException "Daq query failed: not allocated")).
  - reflexivity.
  - left. reflexivity.
  - reflexivity.
  - reflexivity.
  - vm_compute. reflexivity.
Defined.

(** Platform 1 did accept the connection. *)
Example connect_reached_platform_1 :
  calls (snd (@connect (Sim.peer Sim.unallocated_then_free)
                (@__init__ (Sim.peer Sim.unallocated_then_free) None 0%Q [])))
  = [RpcConnect].
Proof. vm_compute. reflexivity. Qed.

Lemma end_run_stops_first_witness :
  @stop Sim.pydaq (Sim.connected_in 4)
  = (Ok tt,
     set_last_stop (now (@called Sim.pydaq RpcStop 3 (Sim.connected_in 4)))
       (set_begin reset_begin (@called Sim.pydaq RpcStop 3 (Sim.connected_in 4)))) ∧
  calls (snd (@end_run Sim.pydaq (Sim.connected_in 4))) = [RpcStop; RpcEndrun].
Proof.
  split.
  - apply (@end_run_stops_first Sim.pydaq (Sim.connected_in 4) 4); reflexivity.
  - vm_compute. reflexivity.
Defined.

Lemma kickoff_rejects_short_duration_witness :
  @kickoff Sim.pydaq
    [("events", Given (VInt 120)); ("duration", Given (VFloat (1 # 2)));
     ("use_l3t", CONFIG_VAL); ("controls", CONFIG_VAL)] (Sim.connected_in 2)
  = (Raise short_duration, Sim.connected_in 2).
Proof.
  apply (@kickoff_rejects_short_duration Sim.pydaq (Sim.connected_in 2) 2
           (Given (VInt 120)) (VFloat (1 # 2)) (1 # 2)%Q);
    reflexivity.
Defined.

Lemma begin_args_one_length_witness :
  lengths (BeginArgs (Some (VInt 10)) None None None) = 1%nat ∧
  Sim.fresh = Sim.fresh.
Proof.
  apply (@begin_args_one_length Sim.pydaq (Given (VInt 10)) (Given (VInt 5))
           (Given (VBool false)) (Given VNone) Sim.fresh).
  vm_compute. reflexivity.
Defined.

(** Ten events and five seconds, [use_l3t] left out, nothing configured:
    the peer is asked for ten events of the level 3 trigger. *)
Lemma begin_args_events_first_witness :
  let a := BeginArgs None (Some (VInt 10)) None None in
  bgn_duration a = None ∧
  (bgn_events a = Some (VInt 10) ∧ bgn_l3t_events a = None ∨
   bgn_l3t_events a = Some (VInt 10) ∧ bgn_events a = None) ∧
  (CONFIG_VAL = CONFIG_VAL →
   @signal_value Sim.pydaq "configured_sig" Sim.fresh = Ok (VBool false) →
   bgn_l3t_events a = Some (VInt 10)).
Proof.
  apply (@begin_args_events_first Sim.pydaq (VInt 10) (Given (VInt 5))
           CONFIG_VAL (Given VNone) Sim.fresh _ Sim.fresh).
  - reflexivity.
  - vm_compute. reflexivity.
Defined.

(** The peer is running and a status is waiting for the end. *)
Definition awaiting_end : @world Sim.pydaq :=
  snd (@Status_new Sim.pydaq (Sim.connected_in 4)).

Lemma finish_thread_outcome_witness :
  let w1 := @called Sim.pydaq RpcEnd 3 awaiting_end in
  @finish_thread Sim.pydaq 0 awaiting_end
  = (Ok tt, set_statuses (<[0%nat := Finished]>)
              (set_begin reset_begin (set_last_stop (now w1) w1))).
Proof.
  exact (@finish_thread_outcome Sim.pydaq awaiting_end 4 0%nat eq_refl eq_refl).
Defined.

Lemma end_status_without_begin_witness :
  @_infinite_run Sim.pydaq (Sim.connected_in 2) = (Ok true, Sim.connected_in 2).
Proof.
  apply (@end_status_without_begin Sim.pydaq (Sim.connected_in 2)).
  reflexivity.
Defined.

Lemma run_number_wants_a_hutch_witness :
  @run_number Sim.pydaq (Some "XYZ") Sim.fresh
  = (Raise (ValueError "xyz is not a valid hutch, cannot determine run number"),
     Sim.fresh).
Proof.
  apply (@run_number_wants_a_hutch Sim.pydaq Sim.fresh "XYZ").
  - done.
  - reflexivity.
Defined.

(** A new object, connected by [connect]. *)
Lemma state_unreadable_when_connected_witness :
  let w := @perform Sim.pydaq call_connect Sim.fresh in
  extra_attrs w !! "_state_enum" = None ∧
  @state Sim.pydaq w
  = (Raise (AttributeError "_state_enum"), @queried Sim.pydaq w 1) ∧
  (∀ events duration record use_l3t controls begin_sleep,
     @configure Sim.pydaq events duration record use_l3t controls begin_sleep w
     = (Raise (AttributeError "_state_enum"), @queried Sim.pydaq w 1)) ∧
  (∀ timeout e,
     @wait Sim.pydaq timeout e w
     = (Raise (AttributeError "_state_enum"), @queried Sim.pydaq w 1)).
Proof.
  apply (@state_unreadable_when_connected Sim.pydaq
           (@perform Sim.pydaq call_connect Sim.fresh) 1).
  - exists None, 0%Q, []. apply rtc_once.
    exact (@step_call Sim.pydaq call_connect Sim.fresh).
  - reflexivity.
Defined.

End DaqLCLS1Laws.

(** ** What [begin] does with a failed start *)
Module DaqBeginLaws.

Section Begin.
Context `{Pydaq}.
Variable cls : Daq.class_info.
Variable self : Daq.methods.

Definition begin_timed_out : exn :=
  DaqTimeoutError "Timeout waiting for daq to begin.".

(** X20: when the wait for the status of [kickoff] ends in an exception
    other than the user's interrupt, [begin] passes it on, a timeout of
    the status as [DaqTimeoutError], and does nothing else: it does not
    sleep, does not wait for the acquisition, and calls neither [stop]
    nor [end_run], whatever [wait] and [end_run] were given. *)
Theorem begin_passes_failure_on wait end_run kw w st w1 v w2 tmo w3 e w4 :
  Daq.kickoff self kw w = (Ok st, w1) →
  Daq.get cls "begin_timeout_cfg" w1 = (Ok v, w2) →
  Daq.as_timeout v w2 = (Ok tmo, w3) →
  status_wait st tmo w3 = (Raise e, w4) →
  e ≠ KeyboardInterrupt →
  Daq.begin cls self wait end_run kw w
  = (Raise (if is_timeout e then begin_timed_out else e), w4).
Proof.
  intros Hk Hg Ht Hw He. unfold Daq.begin.
  unfold mbind, M_bind, bind, try_except.
  rewrite Hk, Hg, Ht, Hw.
  destruct e; simpl; done.
Qed.

End Begin.

(** Nobody completes the status: the wait times out after the fifteen
    seconds of [begin_timeout_cfg]. *)
Lemma begin_passes_failure_on_witness :
  ∃ w4,
    Daq.begin DaqLCLS1.cls (@DaqFacts.handing_out_a_status Sim.pydaq) true true []
      (Sim.connected_in 4)
    = (Raise begin_timed_out, w4) ∧
    DaqLCLS1Facts.calls w4 = [] ∧ now w4 = 15%Q.
Proof.
  eexists. split.
  - eapply (@begin_passes_failure_on Sim.pydaq DaqLCLS1.cls
             (@DaqFacts.handing_out_a_status Sim.pydaq) true true []
             (Sim.connected_in 4) 0%nat _ (VInt 15) _ (Some 15%Q) _
             WaitTimeoutError); try reflexivity. done.
  - split; vm_compute; reflexivity.
Defined.

End DaqBeginLaws.
